(** * The highway driving environment, [highway_env/envs/highway_env.py]

    A shallow embedding of [HighwayEnv] and [HighwayEnvFast]: the scenario
    builder, the reward evaluator and the episode lifecycle checks, followed
    by the properties proved about them.

    Conventions of the embedding.
    - Python numbers are exact rationals ([Q]); an [int] is an integral
      rational.  Rounding of binary floating point is outside the model, so
      every numeric statement is one of exact arithmetic, stated up to [==].
    - A Python exception is a value of [Exn]; a computation that may raise
      returns a [res].  Methods of the environment run in the monad [M],
      which threads the environment object and keeps the state reached when
      an exception escapes.
    - Objects that are shared and mutated (the vehicles) live in a store
      indexed by references; the road and the environment hold references. *)

From Stdlib Require Import QArith Qabs Qminmax Lia Lqa ZArith.
From stdpp Require Import base gmap strings list fin_maps.
Local Open Scope Q_scope.

(** ** Python values, exceptions and fallible computations *)

#[warnings="-register-all"]
Inductive PyVal : Type :=
  | VNone
  | VBool (b : bool)
  | VNum (q : Q)
  | VStr (s : string)
  | VList (l : list PyVal)
  | VDict (d : list (string * PyVal)).

Inductive Exn : Type :=
  | KeyError (key : string)
  | TypeError
  | IndexError
  | ZeroDivisionError
  | AttributeError
  | ValueError.

Inductive res (A : Type) : Type :=
  | Ok (a : A)
  | Raise (e : Exn).
Arguments Ok {A} a.
Arguments Raise {A} e.

#[global] Instance res_ret : MRet res := λ A a, Ok a.
#[global] Instance res_bind : MBind res := λ A B f m,
  match m with
  | Ok a => f a
  | Raise e => Raise e
  end.

(** Truth value of an object, as tested by [if] and by [and]/[or]. *)
Definition truthy (v : PyVal) : bool :=
  match v with
  | VNone => false
  | VBool b => b
  | VNum q => negb (Qeq_bool q 0)
  | VStr s => negb (String.eqb s "")
  | VList l => match l with [] => false | _ => true end
  | VDict d => match d with [] => false | _ => true end
  end.

(** A value used as an operand of float arithmetic. [True] and [False]
    count as 1 and 0; anything that is not a number raises [TypeError]. *)
Definition as_num (v : PyVal) : res Q :=
  match v with
  | VNum q => Ok q
  | VBool b => Ok (if b then 1 else 0)
  | _ => Raise TypeError
  end.

(** A value used where an [int] is required. *)
Definition as_int (v : PyVal) : res Z :=
  match v with
  | VNum q =>
      if (Qnum q mod Zpos (Qden q) =? 0)%Z
      then Ok (Qnum q / Zpos (Qden q))%Z
      else Raise TypeError
  | VBool b => Ok (if b then 1 else 0)%Z
  | _ => Raise TypeError
  end.

(** A two-element sequence read as [x[0]], [x[1]]. *)
Definition as_range (v : PyVal) : res (Q * Q) :=
  match v with
  | VList (a :: b :: _) => lo ← as_num a; hi ← as_num b; Ok (lo, hi)
  | VList _ => Raise IndexError
  | _ => Raise TypeError
  end.

(** [x / y] on numbers. *)
Definition truediv (x y : Q) : res Q :=
  if Qeq_bool y 0 then Raise ZeroDivisionError else Ok (x / y).

(** [float(b)] for a flag. *)
Definition float_of_bool (b : bool) : Q := if b then 1 else 0.

(** ** Dictionaries *)

(** [d[key]] *)
Definition getitem (d : gmap string PyVal) (key : string) : res PyVal :=
  match d !! key with
  | Some v => Ok v
  | None => Raise (KeyError key)
  end.

(** [d.get(key, dflt)] *)
Definition dict_get (d : gmap string PyVal) (key : string) (dflt : PyVal) : PyVal :=
  default dflt (d !! key).

(** A dictionary display [{k1: v1, ...}]: items are stored from left to
    right, so the last of two equal keys wins. *)
Definition dict_display (items : list (string * PyVal)) : gmap string PyVal :=
  foldl (λ d kv, <[kv.1 := kv.2]> d) ∅ items.

(** [d.update(other)] *)
Definition dict_update (d other : gmap string PyVal) : gmap string PyVal :=
  other ∪ d.

(** ** numpy and [highway_env.utils] *)

Module np.

(** [np.clip(a, a_min, a_max)], that is [minimum(a_max, maximum(a, a_min))]. *)
Definition clip (a a_min a_max : Q) : Q := Qmin a_max (Qmax a a_min).

End np.

Module utils.

(** Modelled from the spec: [utils.lmap] is imported from [highway_env.utils],
    which is not part of this file.  It maps a value linearly from the range
    [x] onto the range [y]; for the target [0, 1] this is the spec's formula
    [(v - min) / (max - min)].  The quotient is a Python division. *)
Definition lmap (v : Q) (x y : Q * Q) : res Q :=
  q ← truediv ((v - x.1) * (y.2 - y.1)) (x.2 - x.1);
  Ok (y.1 + q).

(** Modelled from the spec: [utils.near_split] is imported from
    [highway_env.utils], which is not part of this file.  It splits [x] into
    [num_bins] bins as evenly as possible, the remainder going to the first
    bins; a split into no bins is invalid and fails. *)
Definition near_split (x num_bins : Z) : res (list Z) :=
  if (num_bins <=? 0)%Z then Raise ValueError
  else
    let quotient := (x / num_bins)%Z in
    let remainder := (x mod num_bins)%Z in
    Ok (replicate (Z.to_nat remainder) (quotient + 1)%Z
        ++ replicate (Z.to_nat (num_bins - remainder)) quotient).

End utils.

(** ** Floats that are not numbers *)

(** The distances that [Vehicle.lane_distance_to] returns are Python floats,
    and a float can be [nan]; this is a float as far as the safety part of
    the reward can tell, a number or [nan]. *)
Inductive Float : Type :=
  | Finite (q : Q)
  | NaN.

Module floats.

(** [a > b]: every comparison with [nan] is [False]. *)
Definition gt (a : Float) (b : Q) : bool :=
  match a with
  | Finite q => if Qlt_le_dec b q then true else false
  | NaN => false
  end.

(** [abs(a)] *)
Definition abs (a : Float) : Float :=
  match a with
  | Finite q => Finite (Qabs q)
  | NaN => NaN
  end.

(** [a + b] *)
Definition add (a b : Float) : Float :=
  match a, b with
  | Finite p, Finite q => Finite (p + q)
  | _, _ => NaN
  end.

(** [utils.lmap(v, x, y)] for a float [v] and two ranges of numbers: the
    differences, the product and the quotient of the formula are [nan] for
    [nan], and the division still fails for a range of width 0. *)
Definition lmap (v : Float) (x y : Q * Q) : res Float :=
  match v with
  | Finite q => r ← utils.lmap q x y; Ok (Finite r)
  | NaN => _ ← truediv 1 (x.2 - x.1); Ok NaN
  end.

(** [np.clip(a, a_min, a_max)]: the minimum and the maximum of numpy
    propagate [nan]. *)
Definition clip (a : Float) (a_min a_max : Q) : Float :=
  match a with
  | Finite q => Finite (np.clip q a_min a_max)
  | NaN => NaN
  end.

End floats.

(** ** Vehicles, the road and the environment object *)

(** A lane index [(from, to, id)]. *)
Definition LaneIndex : Type := string * string * Z.

(** The fields of a vehicle object that this file reads or writes.
    [target_lane_index] is present exactly on instances of
    [ControlledVehicle]. *)
Record Vehicle : Type := mkVehicle {
  position : Q * Q;
  heading : Q;
  speed : Q;
  crashed : bool;
  on_road : bool;
  lane_index : LaneIndex;
  target_lane_index : option LaneIndex;
  check_collisions : bool
}.

(** [vehicle.check_collisions = flag] *)
Definition set_check_collisions (flag : bool) (v : Vehicle) : Vehicle :=
  mkVehicle (position v) (heading v) (speed v) (crashed v) (on_road v)
    (lane_index v) (target_lane_index v) flag.

(** References to vehicle objects. *)
Definition ref : Type := positive.

(** State of the shared, seedable random generator. *)
Definition Rng : Type := N.

(** Modelled from the spec: [RoadNetwork] is imported from
    [highway_env.road.road], which is not part of this file.  A straight road
    network has the requested number of parallel lanes and a fixed speed
    limit. *)
Record RoadNetwork : Type := mkRoadNetwork {
  lanes : PyVal;
  speed_limit : Q
}.

Definition straight_road_network (lanes : PyVal) (speed_limit : Q) : RoadNetwork :=
  mkRoadNetwork lanes speed_limit.

(** Modelled from the spec: [Road] is imported from [highway_env.road.road],
    which is not part of this file.  The road owns the list of vehicles and
    the lane network; a new road has no vehicles.  Its generator is the
    environment's own [np_random]. *)
Record Road : Type := mkRoad {
  network : RoadNetwork;
  vehicles : list ref;
  record_history : PyVal
}.

(** The environment object [self]. [stdout] collects what [print] wrote. *)
Record Env : Type := mkEnv {
  config : gmap string PyVal;
  store : gmap ref Vehicle;
  road : Road;
  controlled_vehicles : list ref;
  np_random : Rng;
  time : Q;
  action : PyVal;
  stdout : list Q
}.

Definition set_store (f : gmap ref Vehicle → gmap ref Vehicle) (e : Env) : Env :=
  mkEnv (config e) (f (store e)) (road e) (controlled_vehicles e)
    (np_random e) (time e) (action e) (stdout e).
Definition set_road (f : Road → Road) (e : Env) : Env :=
  mkEnv (config e) (store e) (f (road e)) (controlled_vehicles e)
    (np_random e) (time e) (action e) (stdout e).
Definition set_controlled_vehicles (f : list ref → list ref) (e : Env) : Env :=
  mkEnv (config e) (store e) (road e) (f (controlled_vehicles e))
    (np_random e) (time e) (action e) (stdout e).
Definition set_np_random (g : Rng) (e : Env) : Env :=
  mkEnv (config e) (store e) (road e) (controlled_vehicles e)
    g (time e) (action e) (stdout e).
Definition set_stdout (f : list Q → list Q) (e : Env) : Env :=
  mkEnv (config e) (store e) (road e) (controlled_vehicles e)
    (np_random e) (time e) (action e) (f (stdout e)).

(** ** The monad of methods *)

Definition M (A : Type) : Type := Env → res A * Env.

#[global] Instance M_ret : MRet M := λ A a e, (Ok a, e).
#[global] Instance M_bind : MBind M := λ A B f m e,
  match m e with
  | (Ok a, e') => f a e'
  | (Raise x, e') => (Raise x, e')
  end.

Definition lift {A} (r : res A) : M A := λ e, (r, e).
Definition gets {A} (f : Env → A) : M A := λ e, (Ok (f e), e).
Definition modify (f : Env → Env) : M unit := λ e, (Ok tt, f e).

(** [print(x)] *)
Definition print (x : Q) : M unit := modify (set_stdout (λ out, out ++ [x])).

(** [self.config[key]] *)
Definition config_item (key : string) : M PyVal :=
  cfg ← gets config; lift (getitem cfg key).

(** Creating an object: it gets a reference that no object has yet. *)
Definition new_vehicle (v : Vehicle) : M ref := λ e,
  let r := fresh (dom (store e)) in
  (Ok r, set_store (insert r v) e).

(** Modelled from the spec: the property [AbstractEnv.vehicle] is not part of
    this file.  The ego vehicle is the (first) controlled vehicle; without
    one the property is [None] and reading a field of it fails. *)
Definition self_vehicle : M Vehicle := λ e,
  match controlled_vehicles e with
  | r :: _ =>
      match store e !! r with
      | Some v => (Ok v, e)
      | None => (Raise AttributeError, e)
      end
  | [] => (Raise AttributeError, e)
  end.

(** ** Collaborators of the surrounding framework

    The classes this file imports and only calls: the vehicle factories, the
    road queries and the defaults of the base environment.  They are taken
    as an interface; nothing is assumed about what they compute. *)

Class Framework : Type := {
  (** [AbstractEnv.default_config()] *)
  abstract_default_config : gmap string PyVal;
  (** [Vehicle.create_random(road, speed, lane_id, spacing)]: reads the road
      and draws from its generator. *)
  create_random :
    Road → gmap ref Vehicle → Rng → Q → PyVal → Q → res (Vehicle * Rng);
  (** [self.action_type.vehicle_class(road, position, heading, speed)] *)
  vehicle_class : Road → Q * Q → Q → Q → Vehicle;
  (** [utils.class_from_path(path)], naming the class of the traffic. *)
  class_from_path : PyVal → res string;
  (** [cls.create_random(road, spacing)] for the class named [cls]. *)
  other_create_random :
    string → Road → gmap ref Vehicle → Rng → Q → res (Vehicle * Rng);
  (** [vehicle.randomize_behavior()] *)
  randomize_behavior : Vehicle → Rng → Vehicle * Rng;
  (** [road.network.all_side_lanes(lane_index)] *)
  all_side_lanes : RoadNetwork → LaneIndex → list LaneIndex;
  (** [road.neighbour_vehicles(vehicle, lane_index)]: the vehicles ahead and
      behind in the lane, each possibly absent. *)
  neighbour_vehicles :
    Road → gmap ref Vehicle → Vehicle → LaneIndex → option Vehicle * option Vehicle;
  (** The signed distance along the lane from one vehicle to another. *)
  lane_gap : Vehicle → Vehicle → Q;
  (** The distance reported for a neighbour that is absent. *)
  beyond_range : Q
}.

(** Modelled from the spec: [Vehicle.lane_distance_to] belongs to
    [highway_env.vehicle.kinematics], which is not part of this file.  It is
    the signed gap along the lane to the other vehicle; for an absent
    neighbour it is not an error but a distance at or beyond the configured
    range, the framework's [beyond_range]. *)
Definition lane_distance_to `{Framework} (self : Vehicle) (other : option Vehicle) : Q :=
  match other with
  | Some o => lane_gap self o
  | None => beyond_range
  end.

(** [seq[0]] *)
Definition first_item (seq : PyVal) : res Q :=
  match seq with
  | VList (a :: _) => as_num a
  | VList [] => Raise IndexError
  | _ => Raise TypeError
  end.

(** [self.action], the action stored on the environment. *)
Definition self_action : M PyVal := gets action.

(** [self.config[key]] used as a number, as an [int], as a range. *)
Definition config_num (key : string) : M Q :=
  v ← config_item key; lift (as_num v).
Definition config_int (key : string) : M Z :=
  v ← config_item key; lift (as_int v).
Definition config_range (key : string) : M (Q * Q) :=
  v ← config_item key; lift (as_range v).

(** The value of a reward term in a breakdown, [rewards[name]]. *)
Fixpoint term (name : string) (rewards : list (string * Q)) : Q :=
  match rewards with
  | [] => 0
  | (key, value) :: rest => if String.eqb key name then value else term name rest
  end.

(** * class HighwayEnv *)

Module HighwayEnv.
Section methods.
Context `{Framework}.

Definition default_config : gmap string PyVal :=
  let config := abstract_default_config in
  dict_update config (dict_display [
    ("observation", VDict [
       ("type", VStr "Kinematics");
       ("vehicles_count", VNum 10);
       ("features", VList [VStr "presence"; VStr "x"; VStr "y"; VStr "vx";
                           VStr "vy"; VStr "heading"; VStr "cos_h"; VStr "sin_h"])]);
    ("action", VDict [("type", VStr "TrajectoryAction")]);
    ("lanes_count", VNum 4);
    ("vehicles_count", VNum 50);
    ("controlled_vehicles", VNum 1);
    ("initial_lane_id", VNone);
    ("duration", VNum 40);
    ("ego_spacing", VNum 2);
    ("vehicles_density", VNum 1);
    ("collision_reward", VNum (-1));
    ("right_lane_reward", VNum 0.1);
    ("high_speed_reward", VNum 0.4);
    ("lane_change_reward", VNum 0);
    ("reward_speed_range", VList [VNum (-40); VNum 40]);
    ("normalize_reward", VBool true);
    ("offroad_terminal", VBool false);
    ("speed_reward", VNum 25);
    ("collision_reward", VNum (-50));
    ("safe_distance_reward", VNum 5);
    ("on_road_reward", VNum 20);
    ("front_distance_range", VList [VNum 0; VNum 30]);
    ("rear_distance_range", VList [VNum 0; VNum 30]);
    ("torque_reward", VNum 0)]).

(** Create a road composed of straight adjacent lanes. *)
Definition _create_road : M unit :=
  lanes_count ← config_item "lanes_count";
  show_trajectories ← config_item "show_trajectories";
  modify (set_road (λ _,
    mkRoad (straight_road_network lanes_count 30) [] show_trajectories)).

(** One turn of [for _ in range(others)]. *)
Definition create_other (other_vehicles_type : string) : M unit :=
  rd ← gets road;
  vehicles_density ← config_num "vehicles_density";
  spacing ← lift (truediv 1 vehicles_density);
  st ← gets store;
  rng ← gets np_random;
  created ← lift (other_create_random other_vehicles_type rd st rng spacing);
  let randomized := randomize_behavior created.1 created.2 in
  _ ← modify (set_np_random randomized.2);
  vehicle ← new_vehicle randomized.1;
  modify (set_road (λ rd, mkRoad (network rd) (vehicles rd ++ [vehicle]) (record_history rd))).

Fixpoint create_others (other_vehicles_type : string) (others : nat) : M unit :=
  match others with
  | O => mret tt
  | S n => _ ← create_other other_vehicles_type; create_others other_vehicles_type n
  end.

(** One turn of [for others in other_per_controlled]. *)
Definition create_group (other_vehicles_type : string) (others : Z) : M unit :=
  rd ← gets road;
  initial_lane_id ← config_item "initial_lane_id";
  ego_spacing ← config_num "ego_spacing";
  st ← gets store;
  rng ← gets np_random;
  created ← lift (create_random rd st rng 25 initial_lane_id ego_spacing);
  _ ← modify (set_np_random created.2);
  let vehicle := created.1 in
  vehicle ← new_vehicle (vehicle_class rd (position vehicle) (heading vehicle) (speed vehicle));
  _ ← modify (set_controlled_vehicles (λ l, l ++ [vehicle]));
  _ ← modify (set_road (λ rd, mkRoad (network rd) (vehicles rd ++ [vehicle]) (record_history rd)));
  create_others other_vehicles_type (Z.to_nat others).

Fixpoint create_groups (other_vehicles_type : string) (other_per_controlled : list Z) : M unit :=
  match other_per_controlled with
  | [] => mret tt
  | others :: rest =>
      _ ← create_group other_vehicles_type others;
      create_groups other_vehicles_type rest
  end.

(** Create some new random vehicles of a given type, and add them on the road. *)
Definition _create_vehicles : M unit :=
  path ← config_item "other_vehicles_type";
  other_vehicles_type ← lift (class_from_path path);
  vehicles_count ← config_int "vehicles_count";
  controlled_vehicles ← config_int "controlled_vehicles";
  other_per_controlled ← lift (utils.near_split vehicles_count controlled_vehicles);
  _ ← modify (set_controlled_vehicles (λ _, []));
  create_groups other_vehicles_type other_per_controlled.

(** [_reset] calls the methods of the object it runs on; [create_vehicles]
    is the [_create_vehicles] of the object's class. *)
Definition _reset_with (create_vehicles : M unit) : M unit :=
  _ ← _create_road; create_vehicles.

Definition _reset : M unit := _reset_with _create_vehicles.

(** [sum(self.config.get(name, 0) * reward for name, reward in rewards.items())],
    continued from the partial sum [acc]. *)
Fixpoint weighted_sum (cfg : gmap string PyVal) (acc : Q) (items : list (string * Q)) : res Q :=
  match items with
  | [] => Ok acc
  | (name, reward) :: rest =>
      weight ← as_num (dict_get cfg name (VNum 0));
      weighted_sum cfg (acc + weight * reward) rest
  end.

(** The constants and the wheel computations of the energy term. *)
Definition ACCELERATION_RANGE : Q * Q := (-5, 5.0).
Definition minimum_safe_distance : Q := 30.
Definition vehicle_mass : Q := 1458.
Definition rolling_resistance_coefficient : Q := 0.012.
Definition gravity : Q := 9.81.
Definition wheel_radius : Q := 0.33.
Definition wheel_mass : Q := 20.
Definition normal_force : Q := vehicle_mass * gravity.
Definition rolling_resistance : Q := rolling_resistance_coefficient * normal_force.
Definition load_torque : Q := rolling_resistance * wheel_radius.

Definition moment_of_inertia (speed : Q) : res Q :=
  let angular_momentum := wheel_mass * speed * wheel_radius in
  angular_velocity ← truediv speed wheel_radius;
  truediv angular_momentum angular_velocity.

Definition _rewards (action : PyVal) : M (list (string * Q)) :=
  vehicle ← self_vehicle;
  rd ← gets road;
  let neighbours := all_side_lanes (network rd) (lane_index vehicle) in
  let lane :=
    match target_lane_index vehicle with
    | Some target => target.2
    | None => (lane_index vehicle).2
    end in
  (* Speed *)
  reward_speed_range ← config_range "reward_speed_range";
  scaled_speed ← lift (utils.lmap (speed vehicle) reward_speed_range (0, 1));
  (* Safety *)
  st ← gets store;
  let neighbour := neighbour_vehicles rd st vehicle (lane_index vehicle) in
  let front_vehicle := neighbour.1 in
  let rear_vehicle := neighbour.2 in
  let front_distance := lane_distance_to vehicle front_vehicle in
  let rear_distance := lane_distance_to vehicle rear_vehicle in
  let front_distance :=
    if Qlt_le_dec minimum_safe_distance front_distance
    then minimum_safe_distance else front_distance in
  let rear_distance := Qabs rear_distance in
  front_distance_range ← config_range "front_distance_range";
  front_distance ← lift (utils.lmap front_distance front_distance_range (0, 0.5));
  rear_distance_range ← config_range "rear_distance_range";
  rear_distance ← lift (utils.lmap rear_distance rear_distance_range (0, 0.5));
  let safe_distance := front_distance + rear_distance in
  (* Energy saving *)
  stored ← self_action;
  action0 ← lift (first_item stored);
  acceleration ← lift (utils.lmap action0 (0, 1) ACCELERATION_RANGE);
  moment_of_inertia ← lift (moment_of_inertia (speed vehicle));
  angular_acceleration ← lift (truediv acceleration wheel_radius);
  _ ← print acceleration;
  let acceleration_torque := moment_of_inertia * angular_acceleration in
  let total_torque := acceleration_torque + load_torque in
  mret [
    ("speed_reward", np.clip scaled_speed 0 1);
    ("collision_reward", float_of_bool (crashed vehicle));
    ("safe_distance_reward", np.clip safe_distance 0 1);
    ("on_road_reward", float_of_bool (on_road vehicle));
    ("torque_reward", np.clip total_torque 0 1)
  ].

(** The reward is defined to foster driving at high speed, on the rightmost
    lanes, and to avoid collisions. *)
Definition _reward (action : PyVal) : M Q :=
  rewards ← _rewards action;
  cfg ← gets config;
  reward ← lift (weighted_sum cfg 0 rewards);
  normalize_reward ← config_item "normalize_reward";
  if truthy normalize_reward then
    collision_reward ← config_num "collision_reward";
    high_speed_reward ← config_num "high_speed_reward";
    right_lane_reward ← config_num "right_lane_reward";
    lift (utils.lmap reward
            (collision_reward, high_speed_reward + right_lane_reward) (0, 1))
  else mret reward.

(** The episode is over if the ego vehicle crashed.  The value is that of
    [crashed or (offroad_terminal and not on_road)]: [or] and [and] return
    one of their operands. *)
Definition _is_terminated : M PyVal :=
  vehicle ← self_vehicle;
  if crashed vehicle then mret (VBool true)
  else
    offroad_terminal ← config_item "offroad_terminal";
    if truthy offroad_terminal then
      vehicle ← self_vehicle;
      mret (VBool (negb (on_road vehicle)))
    else mret offroad_terminal.

(** The episode is truncated if the time limit is reached. *)
Definition _is_truncated : M bool :=
  now ← gets time;
  duration ← config_num "duration";
  mret (Qle_bool duration now).

End methods.

(** The safety part of [_rewards], from the cap of the forward distance to
    the entry of the breakdown (lines 131-138 and 177), as a function of the
    two floats that [lane_distance_to] returned and of the two configured
    ranges. *)
Definition safe_distance_reward (front_distance rear_distance : Float)
    (front_distance_range rear_distance_range : Q * Q) : res Float :=
  let front_distance :=
    if floats.gt front_distance minimum_safe_distance
    then Finite minimum_safe_distance else front_distance in
  let rear_distance := floats.abs rear_distance in
  front_distance ← floats.lmap front_distance front_distance_range (0, 0.5);
  rear_distance ← floats.lmap rear_distance rear_distance_range (0, 0.5);
  let safe_distance := floats.add front_distance rear_distance in
  Ok (floats.clip safe_distance 0 1).

End HighwayEnv.

(** * class HighwayEnvFast(HighwayEnv) *)

Module HighwayEnvFast.
Section methods.
Context `{Framework}.

Definition default_config : gmap string PyVal :=
  let cfg := HighwayEnv.default_config in
  dict_update cfg (dict_display [
    ("simulation_frequency", VNum 5);
    ("lanes_count", VNum 3);
    ("vehicles_count", VNum 20);
    ("duration", VNum 30);
    ("ego_spacing", VNum 1.5)]).

(** [for vehicle in vehicles: if vehicle not in self.controlled_vehicles:
    vehicle.check_collisions = False].  Membership compares objects by
    identity, that is references. *)
Fixpoint disable_collision_checks (vehicles : list ref) : M unit :=
  match vehicles with
  | [] => mret tt
  | vehicle :: rest =>
      controlled ← gets controlled_vehicles;
      _ ← (if decide (vehicle ∈ controlled) then mret tt
           else modify (set_store (alter (set_check_collisions false) vehicle)));
      disable_collision_checks rest
  end.

Definition _create_vehicles : M unit :=
  _ ← HighwayEnv._create_vehicles;
  (* Disable collision check for uncontrolled vehicles *)
  rd ← gets road;
  disable_collision_checks (vehicles rd).

(** [_reset] is inherited and runs this class's [_create_vehicles]. *)
Definition _reset : M unit := HighwayEnv._reset_with _create_vehicles.

End methods.
End HighwayEnvFast.

(** * Vocabulary of the statements *)

(** The value of [utils.lmap v x y] when it returns. *)
Definition lmap_value (v : Q) (x y : Q * Q) : Q :=
  y.1 + (v - x.1) * (y.2 - y.1) / (x.2 - x.1).

(** A range whose two bounds differ, so that mapping from it divides by a
    number that is not zero. *)
Definition proper (x : Q * Q) : Prop := ¬ x.2 - x.1 == 0.

(** A range of distances: it starts at or above zero and is not empty. *)
Definition distance_range (x : Q * Q) : Prop := 0 <= x.1 ∧ x.1 < x.2.

(** [sum] of a list of integers. *)
Definition total (l : list Z) : Z := foldr Z.add 0%Z l.

(** The names of the reward terms, in the order of the breakdown. *)
Definition term_names : list string :=
  ["speed_reward"; "collision_reward"; "safe_distance_reward";
   "on_road_reward"; "torque_reward"].

(** The environment with another configuration. *)
Definition with_config (cfg : gmap string PyVal) (e : Env) : Env :=
  mkEnv cfg (store e) (road e) (controlled_vehicles e)
    (np_random e) (time e) (action e) (stdout e).

Section vocabulary.
Context `{Framework}.

(** What the reward evaluator reads from the environment [e]: the ego
    vehicle [v], the three configured ranges, each with two distinct bounds,
    and the first component [a0] of the stored action. *)
Record Readable (e : Env) (v : Vehicle) (sr fr rr : Q * Q) (a0 : Q) : Prop := {
  read_vehicle : self_vehicle e = (Ok v, e);
  read_speed_range : config_range "reward_speed_range" e = (Ok sr, e);
  read_front_range : config_range "front_distance_range" e = (Ok fr, e);
  read_rear_range : config_range "rear_distance_range" e = (Ok rr, e);
  read_action : first_item (action e) = Ok a0;
  proper_speed_range : proper sr;
  proper_front_range : proper fr;
  proper_rear_range : proper rr
}.

(** The gaps to the neighbours ahead and behind, as the evaluator gets them. *)
Definition front_gap (e : Env) (v : Vehicle) : Q :=
  lane_distance_to v (neighbour_vehicles (road e) (store e) v (lane_index v)).1.
Definition rear_gap (e : Env) (v : Vehicle) : Q :=
  lane_distance_to v (neighbour_vehicles (road e) (store e) v (lane_index v)).2.

(** The forward gap after the cap, and the two halves of the safety term. *)
Definition capped (front : Q) : Q :=
  if Qlt_le_dec HighwayEnv.minimum_safe_distance front
  then HighwayEnv.minimum_safe_distance else front.
Definition front_half (front : Q) (fr : Q * Q) : Q :=
  lmap_value (capped front) fr (0, 0.5).
Definition rear_half (rear : Q) (rr : Q * Q) : Q :=
  lmap_value (Qabs rear) rr (0, 0.5).

(** The commanded acceleration and the total torque, before clipping. *)
Definition commanded (a0 : Q) : Q :=
  lmap_value a0 (0, 1) HighwayEnv.ACCELERATION_RANGE.
Definition inertia (speed : Q) : Q :=
  HighwayEnv.wheel_mass * speed * HighwayEnv.wheel_radius
    / (speed / HighwayEnv.wheel_radius).
Definition torque (speed a0 : Q) : Q :=
  inertia speed * (commanded a0 / HighwayEnv.wheel_radius) + HighwayEnv.load_torque.

(** The breakdown the evaluator returns. *)
Definition breakdown (v : Vehicle) (front rear : Q) (sr fr rr : Q * Q) (a0 : Q)
  : list (string * Q) :=
  [("speed_reward", np.clip (lmap_value (speed v) sr (0, 1)) 0 1);
   ("collision_reward", float_of_bool (crashed v));
   ("safe_distance_reward", np.clip (front_half front fr + rear_half rear rr) 0 1);
   ("on_road_reward", float_of_bool (on_road v));
   ("torque_reward", np.clip (torque (speed v) a0) 0 1)].

(** The weighted sum of a breakdown under the weights [w]. *)
Definition combined (w : string → Q) (rewards : list (string * Q)) : Q :=
  w "speed_reward" * term "speed_reward" rewards
  + w "collision_reward" * term "collision_reward" rewards
  + w "safe_distance_reward" * term "safe_distance_reward" rewards
  + w "on_road_reward" * term "on_road_reward" rewards
  + w "torque_reward" * term "torque_reward" rewards.

(** The weights [w] are those the configuration gives: [config.get(name, 0)]
    for each of the five terms. *)
Definition weights_of (cfg : gmap string PyVal) (w : string → Q) : Prop :=
  ∀ name, name ∈ term_names → as_num (dict_get cfg name (VNum 0)) = Ok (w name).

(** How the configuration [cfg] asks for normalisation: not at all, or
    onto [0, 1] from the two distinct bounds it gives. *)
Inductive Normalisation (cfg : gmap string PyVal) : option (Q * Q) → Prop :=
  | normalise_off nv :
      cfg !! "normalize_reward" = Some nv → truthy nv = false →
      Normalisation cfg None
  | normalise_on nv lo hs rl :
      cfg !! "normalize_reward" = Some nv → truthy nv = true →
      getitem cfg "collision_reward" ≫= as_num = Ok lo →
      getitem cfg "high_speed_reward" ≫= as_num = Ok hs →
      getitem cfg "right_lane_reward" ≫= as_num = Ok rl →
      proper (lo, hs + rl) →
      Normalisation cfg (Some (lo, hs + rl)).

(** The combined reward after the normalisation asked for. *)
Definition normalised (bounds : option (Q * Q)) (reward : Q) : Q :=
  match bounds with
  | Some b => lmap_value reward b (0, 1)
  | None => reward
  end.

(** The total torque as a function of the commanded acceleration alone. *)
Definition torque_of_acceleration (acceleration : Q) : Q :=
  HighwayEnv.wheel_mass * HighwayEnv.wheel_radius * HighwayEnv.wheel_radius
    * (acceleration / HighwayEnv.wheel_radius) + HighwayEnv.load_torque.

(** The environment after [print(acceleration)]. *)
Definition printed (a0 : Q) (e : Env) : Env :=
  set_stdout (λ out, out ++ [commanded a0]) e.

End vocabulary.

(** The keys the reward evaluator reads by subscript. *)
Definition subscript_keys : list string :=
  ["reward_speed_range"; "front_distance_range"; "rear_distance_range";
   "normalize_reward"; "collision_reward"; "high_speed_reward";
   "right_lane_reward"].

(** The weight keys that are read only through [config.get(name, 0)]. *)
Definition optional_weights : list string :=
  ["speed_reward"; "safe_distance_reward"; "on_road_reward"; "torque_reward"].

(** The method does not return from the state [e]: it raises. *)
Definition fails {A} (m : M A) (e : Env) : Prop :=
  ∃ exn e', m e = (Raise exn, e').

(** The keys the evaluator reads by subscript on every call, and those it
    reads when [normalize_reward] is set, in the order it reads them. *)
Definition evaluator_keys : list string :=
  ["reward_speed_range"; "front_distance_range"; "rear_distance_range";
   "normalize_reward"].
Definition normalisation_keys : list string :=
  ["collision_reward"; "high_speed_reward"; "right_lane_reward"].

(** The keys a reset reads by subscript whatever it builds, in the order it
    reads them; the keys it reads for each controlled vehicle. *)
Definition reset_keys : list string :=
  ["lanes_count"; "show_trajectories"; "other_vehicles_type"; "vehicles_count";
   "controlled_vehicles"].
Definition ego_keys : list string := ["initial_lane_id"; "ego_spacing"].

(** The keys of the scenario builder that the display of the default
    configuration defines. *)
Definition builder_display_keys : list string :=
  ["lanes_count"; "vehicles_count"; "controlled_vehicles"; "initial_lane_id";
   "ego_spacing"; "vehicles_density"].

(** Two configurations the evaluator cannot tell apart: every [get] with
    default 0 and every subscript it makes give the same value. *)
Definition agree (cfg' cfg : gmap string PyVal) : Prop :=
  (∀ key, dict_get cfg' key (VNum 0) = dict_get cfg key (VNum 0)) ∧
  (∀ key, key ∈ subscript_keys → cfg' !! key = cfg !! key).

(** A method that runs alike under configurations that agree, and leaves the
    configuration as it is. *)
Definition framed {A} (m : M A) : Prop :=
  ∀ cfg' e, agree cfg' (config e) →
    m (with_config cfg' e) = ((m e).1, with_config cfg' (m e).2) ∧
    config (m e).2 = config e.

(** The vehicles the environment controls exist and check collisions. *)
Definition controlled_checked (e : Env) : Prop :=
  ∀ r, r ∈ controlled_vehicles e →
       ∃ v, store e !! r = Some v ∧ check_collisions v = true.

(** Every reference on the road is to an object. *)
Definition road_valid (e : Env) : Prop :=
  ∀ r, r ∈ vehicles (road e) → is_Some (store e !! r).

(** * A concrete framework and scenario

    A small instance of the collaborators, on which the methods above can be
    run: vehicles are placed along the x axis, one lane, and the nearest
    vehicles ahead and behind are found by position.  An absent neighbour is
    reported at the distance [beyond]. *)

Module Sample.

Definition lane0 : LaneIndex := ("0", "1", 0%Z).

Definition place (x speed : Q) (controlled : bool) : Vehicle :=
  mkVehicle (x, 0) 0 speed false true lane0
    (if controlled then Some lane0 else None) true.

(** The vehicles of the road, in the order of the road's list. *)
Definition on_road_vehicles (rd : Road) (st : gmap ref Vehicle) : list Vehicle :=
  omap (λ r, st !! r) (vehicles rd).

(** The nearest vehicle strictly ahead ([ahead = true]) or behind. *)
Definition nearest (ahead : bool) (self : Vehicle) (others : list Vehicle) : option Vehicle :=
  foldl (λ best o,
           let gap := (position o).1 - (position self).1 in
           let gap := if ahead then gap else - gap in
           if Qle_bool gap 0 then best
           else match best with
                | None => Some o
                | Some b =>
                    let bgap := (position b).1 - (position self).1 in
                    let bgap := if ahead then bgap else - bgap in
                    if Qle_bool bgap gap then best else Some o
                end)
        None others.

Definition framework (beyond : Q) : Framework := {|
  abstract_default_config :=
    dict_display [
      ("simulation_frequency", VNum 15);
      ("policy_frequency", VNum 1);
      ("other_vehicles_type", VStr "highway_env.vehicle.behavior.IDMVehicle");
      ("show_trajectories", VBool false)];
  create_random := λ rd st rng speed lane_id spacing,
    Ok (place (inject_Z (Z.of_nat (length (vehicles rd))) * 10 * spacing) speed false,
        (rng + 1)%N);
  vehicle_class := λ rd position heading speed, place position.1 speed true;
  class_from_path := λ path,
    match path with VStr s => Ok s | _ => Raise TypeError end;
  other_create_random := λ cls rd st rng spacing,
    Ok (place (inject_Z (Z.of_nat (length (vehicles rd))) * 10 * spacing) 20 false,
        (rng + 1)%N);
  randomize_behavior := λ v rng, (v, (rng + 1)%N);
  all_side_lanes := λ net lane, [lane];
  neighbour_vehicles := λ rd st self lane,
    (nearest true self (on_road_vehicles rd st),
     nearest false self (on_road_vehicles rd st));
  lane_gap := λ self other, (position other).1 - (position self).1;
  beyond_range := beyond
|}.

(** A freshly constructed environment, before its first reset. *)
Definition blank (cfg : gmap string PyVal) : Env :=
  mkEnv cfg ∅ (mkRoad (straight_road_network (VNum 0) 30) [] VNone) []
    0%N 0 (VList [VNum 0.5]) [].

(** An environment whose ego vehicle is alone on the road, at time [now]. *)
Definition alone (cfg : gmap string PyVal) (ego : Vehicle) (now : Q) : Env :=
  mkEnv cfg {[ 1%positive := ego ]}
    (mkRoad (straight_road_network (VNum 4) 30) [1%positive] (VBool false))
    [1%positive] 0%N now (VList [VNum 0.5]) [].

(** The vehicle after a collision. *)
Definition crash (v : Vehicle) : Vehicle :=
  mkVehicle (position v) (heading v) (speed v) true (on_road v)
    (lane_index v) (target_lane_index v) (check_collisions v).

(** The vehicle after leaving the road. *)
Definition stray (v : Vehicle) : Vehicle :=
  mkVehicle (position v) (heading v) (speed v) (crashed v) false
    (lane_index v) (target_lane_index v) (check_collisions v).

(** The default configuration over this framework. *)
Definition defaults : gmap string PyVal :=
  @HighwayEnv.default_config (framework 100).

(** All term weights 0 but the collision weight, which stays -50. *)
Definition only_collision : gmap string PyVal :=
  <["speed_reward" := VNum 0]>
    (<["safe_distance_reward" := VNum 0]>
       (<["on_road_reward" := VNum 0]> defaults)).

Definition only_collision_weights (name : string) : Q :=
  if String.eqb name "collision_reward" then -50 else 0.

(** The default configuration without the key of the speed weight. *)
Definition no_speed_weight : gmap string PyVal :=
  delete "speed_reward" defaults.

(** The default configuration without [reward_speed_range]. *)
Definition no_speed_range : gmap string PyVal :=
  delete "reward_speed_range" defaults.

(** The vehicle that stands for the ego in the concrete scenarios. *)
Definition ego : Vehicle := place 0 25 true.

(** A state that holds only what the evaluator reads, with the stored
    action [a]; it is the same under every framework. *)
Definition probe (a : PyVal) : Env :=
  mkEnv
    (dict_display [
       ("reward_speed_range", VList [VNum (-40); VNum 40]);
       ("front_distance_range", VList [VNum 0; VNum 30]);
       ("rear_distance_range", VList [VNum 0; VNum 30])])
    {[ 1%positive := ego ]}
    (mkRoad (straight_road_network (VNum 1) 30) [1%positive] VNone)
    [1%positive] 0%N 0 a [].

(** The state the base builder reaches from a blank environment with the
    fast variant's defaults. *)
Definition traffic : Env :=
  (@HighwayEnv._create_vehicles (framework 100)
     (blank (@HighwayEnvFast.default_config (framework 100)))).2.

End Sample.

(** * Vocabulary of the further properties *)

(** Sum of the weights that can lower, and that can raise, the reward. *)
Definition lower (w : string → Q) : Q :=
  Qmin (w "speed_reward") 0 + Qmin (w "collision_reward") 0
  + Qmin (w "safe_distance_reward") 0 + Qmin (w "on_road_reward") 0
  + Qmin (w "torque_reward") 0.
Definition upper (w : string → Q) : Q :=
  Qmax (w "speed_reward") 0 + Qmax (w "collision_reward") 0
  + Qmax (w "safe_distance_reward") 0 + Qmax (w "on_road_reward") 0
  + Qmax (w "torque_reward") 0.

(** A method that leaves the environment as it is, whatever it returns. *)
Definition quiet {A} (m : M A) : Prop := ∀ e, (m e).2 = e.

(** A method that writes one line when it returns and nothing when it
    raises, and changes nothing else. *)
Definition prints_on_return {A} (m : M A) : Prop :=
  ∀ e, match m e with
       | (Ok _, e') => ∃ line, e' = set_stdout (λ out, out ++ [line]) e
       | (Raise _, e') => e' = e
       end.

(** A method that changes at most what was printed. *)
Definition only_prints {A} (m : M A) : Prop :=
  ∀ e, ∃ lines, (m e).2 = set_stdout (λ out, out ++ lines) e.

(** The keys of the dictionary display of [HighwayEnv.default_config], in
    the order of the display. *)
Definition highway_keys : list string :=
  ["observation"; "action"; "lanes_count"; "vehicles_count";
   "controlled_vehicles"; "initial_lane_id"; "duration"; "ego_spacing";
   "vehicles_density"; "collision_reward"; "right_lane_reward";
   "high_speed_reward"; "lane_change_reward"; "reward_speed_range";
   "normalize_reward"; "offroad_terminal"; "speed_reward"; "collision_reward";
   "safe_distance_reward"; "on_road_reward"; "front_distance_range";
   "rear_distance_range"; "torque_reward"].

(** The keys the fast variant overrides. *)
Definition fast_keys : list string :=
  ["simulation_frequency"; "lanes_count"; "vehicles_count"; "duration";
   "ego_spacing"].

(** Two configurations that give the reward evaluator the same values: the
    subscripts it makes and the weights of the five terms. *)
Definition same_for_rewards (cfg' cfg : gmap string PyVal) : Prop :=
  (∀ key, key ∈ term_names → dict_get cfg' key (VNum 0) = dict_get cfg key (VNum 0)) ∧
  (∀ key, key ∈ subscript_keys → cfg' !! key = cfg !! key).

(** A method that runs alike under two configurations related by [R]. *)
Definition framed_by (R : relation (gmap string PyVal)) {A} (m : M A) : Prop :=
  ∀ cfg' e, R cfg' (config e) →
    m (with_config cfg' e) = ((m e).1, with_config cfg' (m e).2) ∧
    config (m e).2 = config e.

(** What a builder may do to the environment [e] on the way to [e']: it
    makes the objects [added], all new and distinct, puts them at the end of
    the road's list in the order they were made, and appends those of them
    that are controlled, [ctrl], to the controlled list.  The objects that
    existed stay as they were; only the generator changes besides. *)
Record Built (e e' : Env) (ctrl added : list ref) : Prop := {
  built_config : config e' = config e;
  built_time : time e' = time e;
  built_action : action e' = action e;
  built_stdout : stdout e' = stdout e;
  built_network : network (road e') = network (road e);
  built_history : record_history (road e') = record_history (road e);
  built_store : store e ⊆ store e';
  built_road : vehicles (road e') = vehicles (road e) ++ added;
  built_controlled : controlled_vehicles e' = controlled_vehicles e ++ ctrl;
  built_sublist : ctrl `sublist_of` added;
  built_fresh : ∀ r, r ∈ added → store e !! r = None ∧ is_Some (store e' !! r);
  built_distinct : NoDup added
}.

(** The traffic of each group: [range(others)] turns for a group of size
    [others]. *)
Definition traffic_of (groups : list Z) : nat :=
  foldr (λ others n, (Z.to_nat others + n)%nat) 0%nat groups.

Section vocabulary_builders.
Context `{Framework}.

(** What the base builder reads before it makes the first vehicle of
    traffic: the class of the traffic, the groups, and the random state
    [created] of the first ego vehicle. *)
Record Buildable (e : Env) (cls : string) (groups : list Z)
    (created : Vehicle * Rng) : Prop := {
  build_path : ∃ path,
    config e !! "other_vehicles_type" = Some path ∧ class_from_path path = Ok cls;
  build_split : ∃ vehicles_count controlled,
    config_int "vehicles_count" e = (Ok vehicles_count, e) ∧
    config_int "controlled_vehicles" e = (Ok controlled, e) ∧
    utils.near_split vehicles_count controlled = Ok groups;
  build_ego : ∃ initial_lane_id ego_spacing,
    config e !! "initial_lane_id" = Some initial_lane_id ∧
    getitem (config e) "ego_spacing" ≫= as_num = Ok ego_spacing ∧
    create_random (road e) (store e) (np_random e) 25 initial_lane_id ego_spacing
    = Ok created
}.

(** The environment once the first controlled vehicle is on the road. *)
Definition first_ego_placed (e : Env) (created : Vehicle * Rng) : Env :=
  let r := fresh (dom (store e)) in
  mkEnv (config e)
    (<[r := vehicle_class (road e) (position created.1) (heading created.1)
              (speed created.1)]> (store e))
    (mkRoad (network (road e)) (vehicles (road e) ++ [r]) (record_history (road e)))
    [r] created.2 (time e) (action e) (stdout e).

End vocabulary_builders.

(** The weights of the default configuration. *)
Definition default_weights (name : string) : Q :=
  if String.eqb name "speed_reward" then 25
  else if String.eqb name "collision_reward" then -50
  else if String.eqb name "safe_distance_reward" then 5
  else if String.eqb name "on_road_reward" then 20
  else 0.

Module Cases.

(** The ego vehicle one unit behind the vehicle ahead, nothing behind it. *)
Definition tailgating : Env :=
  mkEnv Sample.defaults
    {[ 1%positive := Sample.ego; 2%positive := Sample.place 1 20 false ]}
    (mkRoad (straight_road_network (VNum 4) 30) [1%positive; 2%positive] (VBool false))
    [1%positive] 0%N 0 (VList [VNum 0.5]) [].

(** The default configuration without [offroad_terminal]. *)
Definition no_offroad_key : gmap string PyVal :=
  delete "offroad_terminal" Sample.defaults.

(** The default configuration without [right_lane_reward], and without
    [vehicles_density]. *)
Definition no_right_lane : gmap string PyVal :=
  delete "right_lane_reward" Sample.defaults.
Definition no_density_key : gmap string PyVal :=
  delete "vehicles_density" Sample.defaults.

(** The default configuration with a traffic density of 0. *)
Definition no_density : gmap string PyVal :=
  <["vehicles_density" := VNum 0]> Sample.defaults.

(** The default configuration with both distance ranges set to [-30, 30]. *)
Definition signed_ranges : gmap string PyVal :=
  <["front_distance_range" := VList [VNum (-30); VNum 30]]>
    (<["rear_distance_range" := VList [VNum (-30); VNum 30]]> Sample.defaults).

(** The sample framework on a road whose query reports the two given
    neighbours. *)
Definition reporting (front rear : option Vehicle) : Framework := {|
  abstract_default_config := @abstract_default_config (Sample.framework 0);
  create_random := @create_random (Sample.framework 0);
  vehicle_class := @vehicle_class (Sample.framework 0);
  class_from_path := @class_from_path (Sample.framework 0);
  other_create_random := @other_create_random (Sample.framework 0);
  randomize_behavior := @randomize_behavior (Sample.framework 0);
  all_side_lanes := @all_side_lanes (Sample.framework 0);
  neighbour_vehicles := λ rd st self lane, (front, rear);
  lane_gap := @lane_gap (Sample.framework 0);
  beyond_range := 0
|}.

(** Three vehicles level with each other, the first being the ego vehicle,
    under the ranges [-30, 30]. *)
Definition level : Env :=
  mkEnv signed_ranges
    {[ 1%positive := Sample.ego; 2%positive := Sample.place 0 20 false;
       3%positive := Sample.place 0 20 false ]}
    (mkRoad (straight_road_network (VNum 4) 30)
       [1%positive; 2%positive; 3%positive] (VBool false))
    [1%positive] 0%N 0 (VList [VNum 0.5]) [].

(** The scene after a reset of the fast variant with its defaults. *)
Definition fast_scene : Env :=
  (@HighwayEnvFast._reset (Sample.framework 100)
     (Sample.blank (@HighwayEnvFast.default_config (Sample.framework 100)))).2.

End Cases.

(** * Properties *)

(** ** Running the monad *)

Section monad_facts.
Context {A B : Type}.

Lemma bind_ok (m : M A) (f : A → M B) e a e1 :
  m e = (Ok a, e1) → (m ≫= f) e = f a e1.
Proof. intros Hm. unfold mbind, M_bind. by rewrite Hm. Qed.

Lemma bind_raise (m : M A) (f : A → M B) e x e1 :
  m e = (Raise x, e1) → (m ≫= f) e = (Raise x, e1).
Proof. intros Hm. unfold mbind, M_bind. by rewrite Hm. Qed.

Lemma bind_inv (m : M A) (f : A → M B) e b e2 :
  (m ≫= f) e = (Ok b, e2) → ∃ a e1, m e = (Ok a, e1) ∧ f a e1 = (Ok b, e2).
Proof.
  unfold mbind, M_bind. destruct (m e) as [[a|x] e1]; [eauto | discriminate].
Qed.

End monad_facts.

Lemma gets_inv {A} (f : Env → A) e a e1 : gets f e = (Ok a, e1) → a = f e ∧ e1 = e.
Proof. unfold gets. intros [= <- <-]. done. Qed.

Lemma lift_inv {A} (r : res A) e a e1 : lift r e = (Ok a, e1) → r = Ok a ∧ e1 = e.
Proof. unfold lift. intros [= -> <-]. done. Qed.

Lemma modify_inv f e u e1 : modify f e = (Ok u, e1) → e1 = f e.
Proof. unfold modify. intros [= <-]. done. Qed.

Lemma config_item_ok e key x : config e !! key = Some x → config_item key e = (Ok x, e).
Proof.
  intros Hk. unfold config_item. erewrite bind_ok by reflexivity.
  unfold lift, getitem. by rewrite Hk.
Qed.

Lemma config_item_missing e key :
  config e !! key = None → config_item key e = (Raise (KeyError key), e).
Proof.
  intros Hk. unfold config_item. erewrite bind_ok by reflexivity.
  unfold lift, getitem. by rewrite Hk.
Qed.

Lemma config_item_inv key e x e1 : config_item key e = (Ok x, e1) → e1 = e.
Proof.
  unfold config_item. intros Hrun.
  apply bind_inv in Hrun as (cfg & e0 & Hg & Hl).
  apply gets_inv in Hg as [-> ->]. by apply lift_inv in Hl as [_ ->].
Qed.

Lemma config_num_ok e key q :
  getitem (config e) key ≫= as_num = Ok q → config_num key e = (Ok q, e).
Proof.
  unfold config_num, getitem. destruct (config e !! key) as [x|] eqn:Hk; [| discriminate].
  simpl. intros Hq. rewrite (bind_ok _ _ _ _ _ (config_item_ok _ _ _ Hk)).
  unfold lift. by rewrite Hq.
Qed.

Lemma config_num_inv key e q e1 : config_num key e = (Ok q, e1) → e1 = e.
Proof.
  unfold config_num. intros Hrun.
  apply bind_inv in Hrun as (x & e0 & Hc & Hl).
  apply config_item_inv in Hc as ->. by apply lift_inv in Hl as [_ ->].
Qed.

Lemma config_int_inv key e n e1 : config_int key e = (Ok n, e1) → e1 = e.
Proof.
  unfold config_int. intros Hrun.
  apply bind_inv in Hrun as (x & e0 & Hc & Hl).
  apply config_item_inv in Hc as ->. by apply lift_inv in Hl as [_ ->].
Qed.

Lemma new_vehicle_inv v e r e1 :
  new_vehicle v e = (Ok r, e1) → store e !! r = None ∧ e1 = set_store (insert r v) e.
Proof.
  unfold new_vehicle. intros [= <- <-]. split; [| done].
  apply not_elem_of_dom. apply is_fresh.
Qed.

(** Inverts a run that returned, one bind and one primitive at a time. *)
Ltac run_inv H :=
  repeat first
    [ apply bind_inv in H as (? & ? & ?Hstep & H)
    | match goal with
      | Hs : gets _ _ = (Ok _, _) |- _ => apply gets_inv in Hs as [-> ->]
      | Hs : lift _ _ = (Ok _, _) |- _ => apply lift_inv in Hs as [? ->]
      | Hs : modify _ _ = (Ok _, _) |- _ => apply modify_inv in Hs as ->
      | Hs : config_item _ _ = (Ok _, _) |- _ => apply config_item_inv in Hs as ->
      | Hs : config_num _ _ = (Ok _, _) |- _ => apply config_num_inv in Hs as ->
      | Hs : config_int _ _ = (Ok _, _) |- _ => apply config_int_inv in Hs as ->
      | Hs : new_vehicle _ _ = (Ok _, _) |- _ => apply new_vehicle_inv in Hs as [? ->]
      end ].

(** Closed facts about rational constants. *)
Ltac q_neq := let E := fresh "E" in intros E; vm_compute in E; discriminate E.

(** ** Division, linear maps and clipping *)

Lemma truediv_ok x y : ¬ y == 0 → truediv x y = Ok (x / y).
Proof.
  intros Hy. unfold truediv.
  destruct (Qeq_bool y 0) eqn:E; [| done].
  apply Qeq_bool_iff in E. contradiction.
Qed.

Lemma truediv_zero x y : y == 0 → truediv x y = Raise ZeroDivisionError.
Proof.
  intros Hy. unfold truediv. apply Qeq_bool_iff in Hy. by rewrite Hy.
Qed.

Lemma lmap_ok v x y : proper x → utils.lmap v x y = Ok (lmap_value v x y).
Proof.
  intros Hx. unfold utils.lmap. rewrite truediv_ok by exact Hx. reflexivity.
Qed.

#[global] Instance lmap_value_compat : Proper (Qeq ==> eq ==> eq ==> Qeq) lmap_value.
Proof.
  intros v v' Hv x ? <- y ? <-. unfold lmap_value. by rewrite Hv.
Qed.

Lemma lmap_value_low v x hi :
  x.1 < x.2 → 0 <= hi → v <= x.1 → lmap_value v x (0, hi) <= 0.
Proof.
  intros Hx Hhi Hv. unfold lmap_value. simpl.
  assert (0 <= (x.1 - v) * hi / (x.2 - x.1)) as Hq.
  { apply Qle_shift_div_l; [lra |]. nra. }
  assert ((v - x.1) * (hi - 0) / (x.2 - x.1) == - ((x.1 - v) * hi / (x.2 - x.1))) as E
    by (field; lra).
  rewrite E. lra.
Qed.

Lemma lmap_value_high v x hi :
  x.1 < x.2 → 0 <= hi → x.2 <= v → hi <= lmap_value v x (0, hi).
Proof.
  intros Hx Hhi Hv. unfold lmap_value. simpl.
  assert (hi <= (v - x.1) * (hi - 0) / (x.2 - x.1)); [| lra].
  apply Qle_shift_div_l; [lra |]. nra.
Qed.

Lemma lmap_value_below v x hi :
  x.1 < x.2 → 0 < hi → v < x.2 → lmap_value v x (0, hi) < hi.
Proof.
  intros Hx Hhi Hv. unfold lmap_value. simpl.
  assert ((v - x.1) * (hi - 0) / (x.2 - x.1) < hi); [| lra].
  apply Qlt_shift_div_r; [lra |]. nra.
Qed.

Lemma clip_bounds a : 0 <= np.clip a 0 1 ∧ np.clip a 0 1 <= 1.
Proof.
  unfold np.clip. split.
  - apply Q.min_glb; [discriminate | apply Q.le_max_r].
  - apply Q.le_min_l.
Qed.

#[global] Instance clip_compat : Proper (Qeq ==> Qeq ==> Qeq ==> Qeq) np.clip.
Proof.
  intros a a' Ha lo lo' Hlo hi hi' Hhi. unfold np.clip.
  by rewrite Ha, Hlo, Hhi.
Qed.

Lemma clip_low a : a <= 0 → np.clip a 0 1 == 0.
Proof.
  intros Ha. unfold np.clip. rewrite (Q.max_r a 0) by done.
  apply Q.min_r. discriminate.
Qed.

Lemma clip_high a : 1 <= a → np.clip a 0 1 == 1.
Proof.
  intros Ha. unfold np.clip. rewrite (Q.max_l a 0) by lra.
  by apply Q.min_l.
Qed.

(** ** The reward evaluator *)

Section evaluator.
Context `{Framework}.
Import HighwayEnv.

Lemma wheel_radius_nonzero : ¬ wheel_radius == 0.
Proof. discriminate. Qed.

Lemma moment_of_inertia_ok s : ¬ s == 0 → moment_of_inertia s = Ok (inertia s).
Proof.
  intros Hs. unfold moment_of_inertia.
  rewrite (truediv_ok s) by apply wheel_radius_nonzero. simpl.
  rewrite truediv_ok; [reflexivity |].
  intros E. apply Hs. unfold wheel_radius in E.
  assert (s == s / 0.33 * 0.33) as -> by field. rewrite E. ring.
Qed.

Lemma moment_of_inertia_zero s :
  s == 0 → moment_of_inertia s = Raise ZeroDivisionError.
Proof.
  intros Hs. unfold moment_of_inertia.
  rewrite (truediv_ok s) by apply wheel_radius_nonzero. simpl.
  apply truediv_zero. rewrite Hs. reflexivity.
Qed.

Lemma inertia_constant s : ¬ s == 0 → inertia s == wheel_mass * wheel_radius * wheel_radius.
Proof.
  intros Hs. unfold inertia, wheel_mass, wheel_radius.
  field; repeat split; (done || discriminate).
Qed.

Lemma torque_constant s a0 : ¬ s == 0 → torque s a0 == torque_of_acceleration (commanded a0).
Proof.
  intros Hs. unfold torque, torque_of_acceleration. by rewrite inertia_constant.
Qed.

Lemma capped_min front : capped front == Qmin front 30.
Proof.
  unfold capped, minimum_safe_distance.
  destruct (Qlt_le_dec 30 front) as [Hlt | Hle].
  - symmetry. apply Q.min_r. lra.
  - symmetry. by apply Q.min_l.
Qed.

(** The evaluator up to the torque term: every step that precedes the
    division by the angular velocity returns. *)
Ltac to_the_torque Hv Hs Hf Hr Ha :=
  unfold _rewards;
  rewrite (bind_ok _ _ _ _ _ Hv);
  erewrite bind_ok by reflexivity;
  rewrite (bind_ok _ _ _ _ _ Hs);
  erewrite bind_ok by (unfold lift; rewrite lmap_ok by done; reflexivity);
  erewrite bind_ok by reflexivity;
  rewrite (bind_ok _ _ _ _ _ Hf);
  erewrite bind_ok by (unfold lift; rewrite lmap_ok by done; reflexivity);
  rewrite (bind_ok _ _ _ _ _ Hr);
  erewrite bind_ok by (unfold lift; rewrite lmap_ok by done; reflexivity);
  erewrite bind_ok by reflexivity;
  erewrite bind_ok by (unfold lift; rewrite Ha; reflexivity);
  erewrite bind_ok by (unfold lift; rewrite lmap_ok by discriminate; reflexivity).

(** With a moving ego vehicle the evaluator returns the breakdown, having
    printed the commanded acceleration. *)
Lemma rewards_run e v sr fr rr a0 a :
  Readable e v sr fr rr a0 → ¬ speed v == 0 →
  _rewards a e
  = (Ok (breakdown v (front_gap e v) (rear_gap e v) sr fr rr a0), printed a0 e).
Proof.
  intros [Hv Hs Hf Hr Ha Ps Pf Pr] Hm.
  to_the_torque Hv Hs Hf Hr Ha.
  erewrite bind_ok by (unfold lift; rewrite moment_of_inertia_ok by done; reflexivity).
  erewrite bind_ok
    by (unfold lift; rewrite truediv_ok by apply wheel_radius_nonzero; reflexivity).
  erewrite bind_ok by reflexivity.
  reflexivity.
Qed.

Lemma weighted_sum_breakdown cfg w v front rear sr fr rr a0 :
  weights_of cfg w →
  ∃ reward, weighted_sum cfg 0 (breakdown v front rear sr fr rr a0) = Ok reward ∧
            reward == combined w (breakdown v front rear sr fr rr a0).
Proof.
  intros Hw. unfold breakdown, weighted_sum.
  rewrite !Hw by (unfold term_names; set_solver).
  simpl. eexists. split; [reflexivity |].
  unfold combined. simpl. ring.
Qed.

(** C1. The combined reward is the sum, over the five terms of the breakdown,
    of the configured weight ([config.get(name, 0)]) times the term; when
    [normalize_reward] is set the sum is mapped linearly from
    [[collision_reward, high_speed_reward + right_lane_reward]] onto [0, 1].
    For a crashed ego vehicle, with every weight 0 but the collision weight
    -50 and the lower bound -50, the normalised reward equals 0. *)
Theorem reward_combination e v sr fr rr a0 w bounds a :
  Readable e v sr fr rr a0 → ¬ speed v == 0 →
  weights_of (config e) w → Normalisation (config e) bounds →
  ∃ rewards reward e',
    _rewards a e = (Ok rewards, e') ∧
    _reward a e = (Ok reward, e') ∧
    reward == normalised bounds (combined w rewards) ∧
    (crashed v = true →
     w "speed_reward" == 0 → w "collision_reward" == -50 →
     w "safe_distance_reward" == 0 → w "on_road_reward" == 0 →
     w "torque_reward" == 0 →
     ∀ b, bounds = Some b → b.1 == -50 → reward == 0).
Proof.
  intros Hr Hs Hw Hn.
  destruct (weighted_sum_breakdown (config e) w v (front_gap e v) (rear_gap e v)
              sr fr rr a0 Hw) as (reward & Hsum & Hreward).
  assert (∃ r, _reward a e = (Ok r, printed a0 e) ∧ r == normalised bounds reward)
    as (r & Hrun & Hval).
  { unfold _reward.
    rewrite (bind_ok _ _ _ _ _ (rewards_run _ _ _ _ _ _ a Hr Hs)).
    erewrite bind_ok by reflexivity.
    change (config (printed a0 e)) with (config e).
    erewrite bind_ok by (unfold lift; rewrite Hsum; reflexivity).
    destruct Hn as [nv Hk Hf | nv lo hs rl Hk Ht Hlo Hhs Hrl Hp].
    - erewrite bind_ok by (by apply config_item_ok).
      rewrite Hf. eexists. split; reflexivity.
    - erewrite bind_ok by (by apply config_item_ok).
      rewrite Ht.
      erewrite bind_ok by (by apply config_num_ok).
      erewrite bind_ok by (by apply config_num_ok).
      erewrite bind_ok by (by apply config_num_ok).
      unfold lift. rewrite lmap_ok by done. eexists. split; reflexivity. }
  exists (breakdown v (front_gap e v) (rear_gap e v) sr fr rr a0), r, (printed a0 e).
  split; [by apply rewards_run |]. split; [done |].
  assert (r == normalised bounds
                 (combined w (breakdown v (front_gap e v) (rear_gap e v) sr fr rr a0)))
    as Hfinal.
  { rewrite Hval. destruct bounds; simpl; [by rewrite Hreward | done]. }
  split; [done |].
  intros Hc W1 W2 W3 W4 W5 b -> Hb.
  rewrite Hfinal. simpl. unfold lmap_value, combined. simpl.
  rewrite W1, W2, W3, W4, W5, Hc, Hb. simpl.
  assert (0 * np.clip (lmap_value (speed v) sr (0, 1)) 0 1 + -50 * 1
          + 0 * np.clip (front_half (front_gap e v) fr + rear_half (rear_gap e v) rr) 0 1
          + 0 * float_of_bool (on_road v) + 0 * np.clip (torque (speed v) a0) 0 1
          - -50 == 0) as -> by ring.
  unfold Qdiv. ring.
Qed.

(** C2. At speed exactly 0 the quotient of the angular momentum by the
    angular velocity divides by zero: the evaluator raises
    [ZeroDivisionError] and returns no breakdown; nothing guards the case. *)
Theorem torque_zero_speed_raises e v sr fr rr a0 a :
  Readable e v sr fr rr a0 → speed v == 0 →
  _rewards a e = (Raise ZeroDivisionError, e).
Proof.
  intros [Hv Hs Hf Hr Ha Ps Pf Pr] Hm.
  to_the_torque Hv Hs Hf Hr Ha.
  erewrite bind_raise; [reflexivity |].
  unfold lift. by rewrite moment_of_inertia_zero.
Qed.

(** C3. Nothing in the evaluator guards an absent neighbour: the float that
    [lane_distance_to] returns for it takes the path of a measured distance.
    The safety term of the breakdown is the value of the safety computation
    at the two floats returned.  When [nan] is returned for the front or for
    the rear neighbour, the comparison with the cap is false, the absolute
    value, the linear map, the sum and the clip give [nan], and the safety
    term is [nan], an undefined value.  When a number is returned for the
    absent neighbour, its half of the safety term is saturated just when
    that number reaches the maximum of the configured range, for the front
    after the cap at 30. *)
Theorem absent_neighbour_unguarded e v sr fr rr a0 a :
  Readable e v sr fr rr a0 → ¬ speed v == 0 →
  fr.1 < fr.2 → rr.1 < rr.2 →
  let neighbour := neighbour_vehicles (road e) (store e) v (lane_index v) in
  (∃ rewards e',
     _rewards a e = (Ok rewards, e') ∧
     safe_distance_reward (Finite (lane_distance_to v neighbour.1))
       (Finite (lane_distance_to v neighbour.2)) fr rr
     = Ok (Finite (term "safe_distance_reward" rewards))) ∧
  (∀ other,
     safe_distance_reward NaN other fr rr = Ok NaN ∧
     safe_distance_reward other NaN fr rr = Ok NaN) ∧
  (neighbour.1 = None →
     (0.5 <= front_half (front_gap e v) fr ↔ fr.2 <= Qmin beyond_range 30)) ∧
  (neighbour.2 = None →
     (0.5 <= rear_half (rear_gap e v) rr ↔ rr.2 <= Qabs beyond_range)).
Proof.
  intros Hr Hs Hf Hrr neighbour.
  assert (proper fr) as Pf by (unfold proper; lra).
  assert (proper rr) as Pr by (unfold proper; lra).
  split; [| split; [| split]].
  - eexists _, _. split; [by apply rewards_run |].
    unfold safe_distance_reward, floats.gt, floats.lmap. simpl term.
    unfold front_half, rear_half, capped, front_gap, rear_gap. fold neighbour.
    destruct (Qlt_le_dec minimum_safe_distance (lane_distance_to v neighbour.1));
      rewrite lmap_ok by done; cbn [mbind res_bind floats.abs];
      rewrite lmap_ok by done; reflexivity.
  - intros other. unfold safe_distance_reward. split.
    + cbn [floats.gt floats.lmap].
      rewrite truediv_ok by done. cbn [mbind res_bind].
      destruct (floats.abs other) as [q |]; cbn [floats.lmap].
      * rewrite lmap_ok by done. reflexivity.
      * rewrite truediv_ok by done. reflexivity.
    + cbn [floats.abs].
      destruct (if floats.gt other minimum_safe_distance
                then Finite minimum_safe_distance else other) as [q |];
        cbn [floats.lmap].
      * rewrite lmap_ok by done. cbn [mbind res_bind].
        rewrite truediv_ok by done. reflexivity.
      * rewrite !truediv_ok by done. reflexivity.
  - intros Hn. unfold front_half, front_gap. fold neighbour. rewrite Hn. simpl.
    rewrite capped_min. split.
    + intros Hhalf. destruct (Qlt_le_dec (Qmin beyond_range 30) fr.2) as [Hlt | Hle];
        [| done].
      pose proof (lmap_value_below (Qmin beyond_range 30) fr 0.5 Hf eq_refl Hlt). lra.
    + intros Hle. by apply lmap_value_high.
  - intros Hn. unfold rear_half, rear_gap. fold neighbour. rewrite Hn. simpl. split.
    + intros Hhalf. destruct (Qlt_le_dec (Qabs beyond_range) rr.2) as [Hlt | Hle];
        [| done].
      pose proof (lmap_value_below (Qabs beyond_range) rr 0.5 Hrr eq_refl Hlt). lra.
    + intros Hle. by apply lmap_value_high.
Qed.

(** C4, as amended. For every pair of gaps the safety term of the breakdown
    lies in [0, 1]; it is the clipped sum of the forward gap, capped at 30,
    mapped from [front_distance_range] onto [0, 0.5] and of the absolute
    rear gap mapped from [rear_distance_range] onto [0, 0.5]; a forward gap
    above 30 counts as 30; and with both gaps 0 the term is 0 when neither
    configured range starts below 0. *)
Theorem safe_distance_reward_range e v sr fr rr a0 a :
  Readable e v sr fr rr a0 → ¬ speed v == 0 →
  ∃ rewards e',
    _rewards a e = (Ok rewards, e') ∧
    let front := front_gap e v in
    let rear := rear_gap e v in
    let safe := term "safe_distance_reward" rewards in
    (0 <= safe ∧ safe <= 1) ∧
    safe == np.clip (lmap_value (Qmin front 30) fr (0, 0.5)
                     + lmap_value (Qabs rear) rr (0, 0.5)) 0 1 ∧
    (30 < front →
     safe == np.clip (lmap_value 30 fr (0, 0.5)
                      + lmap_value (Qabs rear) rr (0, 0.5)) 0 1) ∧
    (front == 0 → rear == 0 → distance_range fr → distance_range rr → safe == 0).
Proof.
  intros Hr Hs. eexists _, _. split; [by apply rewards_run |].
  cbn zeta. simpl term. unfold front_half, rear_half.
  split; [apply clip_bounds |]. split; [| split].
  - by rewrite capped_min.
  - intros Hfar. rewrite capped_min.
    rewrite (Q.min_r (front_gap e v) 30) by lra. reflexivity.
  - intros Hf0 Hr0 [Hf1 Hf2] [Hr1 Hr2].
    apply clip_low.
    assert (lmap_value (capped (front_gap e v)) fr (0, 0.5) <= 0).
    { apply lmap_value_low; [done | discriminate |].
      rewrite capped_min, Hf0. rewrite Q.min_l by discriminate. done. }
    assert (lmap_value (Qabs (rear_gap e v)) rr (0, 0.5) <= 0).
    { apply lmap_value_low; [done | discriminate |].
      rewrite Hr0. done. }
    lra.
Qed.

(** C5. Termination and truncation return a truth value and leave the state
    as it is: the episode is terminated exactly when the ego vehicle is
    crashed, or [offroad_terminal] is set and the vehicle is off the road;
    it is truncated exactly when the elapsed time has reached [duration]. *)
Theorem episode_lifecycle e v b d :
  self_vehicle e = (Ok v, e) →
  config e !! "offroad_terminal" = Some (VBool b) →
  config e !! "duration" = Some (VNum d) →
  (_is_terminated e = (Ok (VBool (crashed v || b && negb (on_road v))), e) ∧
   (crashed v || b && negb (on_road v) = true
    ↔ crashed v = true ∨ (b = true ∧ on_road v = false)) ∧
   (b = false → crashed v = false → on_road v = false →
    _is_terminated e = (Ok (VBool false), e))) ∧
  ∃ truncated,
    _is_truncated e = (Ok truncated, e) ∧
    (truncated = true ↔ d <= time e) ∧
    (time e == d → truncated = true) ∧
    (time e < d → truncated = false).
Proof.
  intros Hv Ho Hd.
  assert (_is_terminated e = (Ok (VBool (crashed v || b && negb (on_road v))), e))
    as Hterm.
  { unfold _is_terminated. rewrite (bind_ok _ _ _ _ _ Hv).
    destruct (crashed v); [reflexivity |].
    rewrite (bind_ok _ _ _ _ _ (config_item_ok _ _ _ Ho)). simpl.
    destruct b; [| reflexivity].
    by rewrite (bind_ok _ _ _ _ _ Hv). }
  split.
  - split; [done |]. split.
    + destruct (crashed v), b, (on_road v); simpl; intuition discriminate.
    + intros -> Hc Hroad. by rewrite Hterm, Hc.
  - exists (Qle_bool d (time e)). split; [| split; [| split]].
    + unfold _is_truncated. erewrite bind_ok by reflexivity.
      erewrite bind_ok; [reflexivity |].
      apply config_num_ok. unfold getitem. by rewrite Hd.
    + apply Qle_bool_iff.
    + intros Ht. apply Qle_bool_iff. lra.
    + intros Ht. destruct (Qle_bool d (time e)) eqn:E; [| done].
      apply Qle_bool_iff in E. lra.
Qed.

(** C9. The breakdown and the scalar reward do not depend on the action
    argument: two calls in one state with any two arguments give the same
    result.  The torque term reads the action stored on the environment:
    two states that differ only in the stored action give different torque
    terms. *)
Theorem rewards_ignore_action_argument e a1 a2 :
  (_rewards a1 e = _rewards a2 e ∧ _reward a1 e = _reward a2 e) ∧
  ∃ r1 r2 e1 e2,
    _rewards a1 (Sample.probe (VList [VNum 0.5])) = (Ok r1, e1) ∧
    _rewards a1 (Sample.probe (VList [VNum (-1)])) = (Ok r2, e2) ∧
    term "torque_reward" r1 == 1 ∧ term "torque_reward" r2 == 0.
Proof.
  split; [split; reflexivity |].
  assert (∀ s q, first_item s = Ok q →
            Readable (Sample.probe s) Sample.ego (-40, 40) (0, 30) (0, 30) q) as Hread.
  { intros s q Hq. constructor; try reflexivity; try exact Hq; q_neq. }
  eexists _, _, _, _.
  split; [apply (rewards_run _ _ _ _ _ _ a1 (Hread (VList [VNum 0.5]) 0.5 eq_refl)); q_neq |].
  split; [apply (rewards_run _ _ _ _ _ _ a1 (Hread (VList [VNum (-1)]) (-1) eq_refl)); q_neq |].
  split; reflexivity.
Qed.

(** C10. For a speed that is not 0 the moment of inertia equals
    [wheel_mass * wheel_radius * wheel_radius]: the speed cancels, so the
    total torque before clipping, and with it the torque term, is a function
    of the commanded acceleration and the constants alone. *)
Theorem torque_independent_of_speed e v sr fr rr a0 a :
  Readable e v sr fr rr a0 → ¬ speed v == 0 →
  (∃ i, moment_of_inertia (speed v) = Ok i ∧
        i == wheel_mass * wheel_radius * wheel_radius) ∧
  torque (speed v) a0 == torque_of_acceleration (commanded a0) ∧
  ∃ rewards e',
    _rewards a e = (Ok rewards, e') ∧
    term "torque_reward" rewards = np.clip (torque (speed v) a0) 0 1 ∧
    term "torque_reward" rewards == np.clip (torque_of_acceleration (commanded a0)) 0 1.
Proof.
  intros Hr Hs. split; [| split].
  - exists (inertia (speed v)).
    split; [by apply moment_of_inertia_ok | by apply inertia_constant].
  - by apply torque_constant.
  - eexists _, _. split; [by apply rewards_run |].
    split; [reflexivity |]. simpl. by rewrite torque_constant.
Qed.

End evaluator.

(** ** Splitting the traffic *)

Lemma total_app l1 l2 : total (l1 ++ l2) = (total l1 + total l2)%Z.
Proof. unfold total. induction l1 as [| x l1 IH]; simpl; lia. Qed.

Lemma total_replicate n x : total (replicate n x) = (Z.of_nat n * x)%Z.
Proof. unfold total. induction n as [| n IH]; simpl replicate; simpl foldr; lia. Qed.

(** C6. For [n >= 0] and [bins >= 1], [near_split n bins] returns a list of
    [bins] sizes that sum to [n], any two of which differ by at most 1, the
    first [n mod bins] of them being the larger ones; it is a function of
    its arguments, and [near_split 50 1 = [50]], [near_split 7 3 = [3; 2; 2]],
    [near_split 0 2 = [0; 0]]. *)
Theorem near_split_spec n bins :
  (0 <= n)%Z → (1 <= bins)%Z →
  ∃ l,
    utils.near_split n bins = Ok l ∧
    length l = Z.to_nat bins ∧
    total l = n ∧
    (∀ x y, x ∈ l → y ∈ l → (Z.abs (x - y) <= 1)%Z) ∧
    (∀ i x, l !! i = Some x →
            x = if (Z.of_nat i <? n mod bins)%Z then (n / bins + 1)%Z else (n / bins)%Z) ∧
    utils.near_split 50 1 = Ok [50%Z] ∧
    utils.near_split 7 3 = Ok [3%Z; 2%Z; 2%Z] ∧
    utils.near_split 0 2 = Ok [0%Z; 0%Z].
Proof.
  intros Hn Hbins.
  pose proof (Z.mod_pos_bound n bins ltac:(lia)) as Hrem.
  pose proof (Z.div_mod n bins ltac:(lia)) as Hdiv.
  unfold utils.near_split.
  destruct (bins <=? 0)%Z eqn:E; [lia |]. clear E.
  eexists. split; [reflexivity |].
  split; [| split; [| split; [| split]]].
  - rewrite length_app, !length_replicate. lia.
  - rewrite total_app, !total_replicate. rewrite !Z2Nat.id by lia. lia.
  - intros x y Hx Hy.
    apply elem_of_app in Hx as [Hx | Hx]; apply elem_of_replicate in Hx as [-> _];
      apply elem_of_app in Hy as [Hy | Hy]; apply elem_of_replicate in Hy as [-> _]; lia.
  - intros i x Hi.
    apply lookup_app_Some in Hi as [Hi | [Hlen Hi]].
    + apply lookup_replicate in Hi as [-> Hlt].
      destruct (Z.of_nat i <? n mod bins)%Z eqn:E; [done | lia].
    + rewrite length_replicate in Hlen. apply lookup_replicate in Hi as [-> _].
      destruct (Z.of_nat i <? n mod bins)%Z eqn:E; [lia | done].
  - repeat split; reflexivity.
Qed.

(** ** The builders *)

Section builders.
Context `{Framework}.
Hypothesis vehicle_class_checks :
  ∀ rd p h s, check_collisions (vehicle_class rd p h s) = true.

Lemma create_other_keeps cls e e' :
  HighwayEnv.create_other cls e = (Ok tt, e') →
  (controlled_checked e → controlled_checked e') ∧ (road_valid e → road_valid e').
Proof.
  unfold HighwayEnv.create_other. intros Hrun. run_inv Hrun.
  match goal with Hf : store _ !! ?r = None |- _ => rename Hf into Hfresh end.
  simpl in Hfresh. split.
  - intros Hc r Hr. simpl in *. destruct (Hc r Hr) as (v & Hv & Hchk).
    exists v. split; [| done]. rewrite lookup_insert_ne; [done |]. congruence.
  - intros Hv r Hr. simpl in *. apply elem_of_app in Hr as [Hr | Hr].
    + destruct (Hv r Hr) as [v Hl]. exists v.
      rewrite lookup_insert_ne; [done |]. congruence.
    + apply list_elem_of_singleton in Hr as ->. rewrite lookup_insert_eq. eauto.
Qed.

Lemma create_others_keeps cls n e e' :
  HighwayEnv.create_others cls n e = (Ok tt, e') →
  (controlled_checked e → controlled_checked e') ∧ (road_valid e → road_valid e').
Proof.
  revert e. induction n as [| n IH]; intros e Hrun; simpl in Hrun.
  - injection Hrun as <-. done.
  - apply bind_inv in Hrun as ([] & e1 & Hone & Hrest).
    apply create_other_keeps in Hone as [Hc1 Hv1].
    apply IH in Hrest as [Hc2 Hv2]. split; auto.
Qed.

Lemma create_group_keeps cls others e e' :
  HighwayEnv.create_group cls others e = (Ok tt, e') →
  (controlled_checked e → controlled_checked e') ∧ (road_valid e → road_valid e').
Proof.
  unfold HighwayEnv.create_group. intros Hrun. run_inv Hrun.
  match goal with Hf : store _ !! ?r = None |- _ => rename Hf into Hfresh end.
  simpl in Hfresh.
  apply create_others_keeps in Hrun as [Hc Hv]. split.
  - intros Hc0. apply Hc. intros r Hr. simpl in *.
    apply elem_of_app in Hr as [Hr | Hr].
    + destruct (Hc0 r Hr) as (v & Hl & Hchk). exists v. split; [| done].
      rewrite lookup_insert_ne; [done |]. congruence.
    + apply list_elem_of_singleton in Hr as ->. rewrite lookup_insert_eq.
      eexists. split; [reflexivity |]. apply vehicle_class_checks.
  - intros Hv0. apply Hv. intros r Hr. simpl in *.
    apply elem_of_app in Hr as [Hr | Hr].
    + destruct (Hv0 r Hr) as [v Hl]. exists v.
      rewrite lookup_insert_ne; [done |]. congruence.
    + apply list_elem_of_singleton in Hr as ->. rewrite lookup_insert_eq. eauto.
Qed.

Lemma create_groups_keeps cls groups e e' :
  HighwayEnv.create_groups cls groups e = (Ok tt, e') →
  (controlled_checked e → controlled_checked e') ∧ (road_valid e → road_valid e').
Proof.
  revert e. induction groups as [| others groups IH]; intros e Hrun; simpl in Hrun.
  - injection Hrun as <-. done.
  - apply bind_inv in Hrun as ([] & e1 & Hone & Hrest).
    apply create_group_keeps in Hone as [Hc1 Hv1].
    apply IH in Hrest as [Hc2 Hv2]. split; auto.
Qed.

(** The base builder starts the controlled list afresh, so every vehicle it
    controls is one it has just made. *)
Lemma create_vehicles_checked e e' :
  HighwayEnv._create_vehicles e = (Ok tt, e') →
  controlled_checked e' ∧ (road_valid e → road_valid e').
Proof.
  unfold HighwayEnv._create_vehicles. intros Hrun. run_inv Hrun.
  apply create_groups_keeps in Hrun as [Hc Hv]. split.
  - apply Hc. intros r Hr. simpl in Hr. by apply elem_of_nil in Hr.
  - intros Hv0. apply Hv. exact Hv0.
Qed.

End builders.

Lemma set_check_collisions_twice flag v :
  set_check_collisions flag (set_check_collisions flag v) = set_check_collisions flag v.
Proof. reflexivity. Qed.

(** The loop of the fast variant changes the store alone, and there only the
    flag of the vehicles on its list that are not controlled. *)
Lemma disable_collision_checks_run l e :
  ∃ st,
    HighwayEnvFast.disable_collision_checks l e = (Ok tt, set_store (λ _, st) e) ∧
    ∀ r, st !! r =
         if decide (r ∈ l ∧ r ∉ controlled_vehicles e)
         then set_check_collisions false <$> store e !! r
         else store e !! r.
Proof.
  revert e. induction l as [| r0 l IH]; intros e.
  - exists (store e). split; [by destruct e |].
    intros r. rewrite decide_False; [done |].
    intros [Hd _]. by apply elem_of_nil in Hd.
  - cbn [HighwayEnvFast.disable_collision_checks].
    erewrite bind_ok by reflexivity.
    destruct (decide (r0 ∈ controlled_vehicles e)) as [Hin | Hout].
    + erewrite bind_ok by reflexivity.
      destruct (IH e) as (st & Hrun & Hst). exists st. split; [done |].
      intros r. rewrite Hst. apply decide_ext. rewrite elem_of_cons.
      split; [tauto |]. intros [[-> | Hl] Hc]; [contradiction | done].
    + erewrite bind_ok by reflexivity.
      destruct (IH (set_store (alter (set_check_collisions false) r0) e))
        as (st & Hrun & Hst).
      exists st. split; [by rewrite Hrun |].
      intros r. rewrite Hst. simpl. rewrite lookup_alter.
      destruct (decide (r0 = r)) as [-> | Hne].
      * rewrite (decide_True (P := r ∈ r :: l ∧ _)) by (split; [by left | done]).
        destruct (decide (r ∈ l ∧ r ∉ controlled_vehicles e)); [| done].
        destruct (store e !! r); simpl; [| done].
        by rewrite set_check_collisions_twice.
      * apply decide_ext. rewrite elem_of_cons.
        split; [tauto |]. intros [[-> | Hl] Hc]; [contradiction | done].
Qed.

Section fast.
Context `{Framework}.

(** C7. When the vehicle creation of the fast variant completes, every
    vehicle on the road's list that is not controlled has collision checking
    off, and every controlled vehicle has it on, the constructor of
    controlled vehicles turning it on; the state is that of the base builder
    but for these flags: lists, configuration, generator and every other
    field of every vehicle are the same. *)
Theorem fast_disables_uncontrolled_checks e e_base :
  (∀ rd p h s, check_collisions (vehicle_class rd p h s) = true) →
  HighwayEnv._create_vehicles e = (Ok tt, e_base) →
  ∃ e_fast,
    HighwayEnvFast._create_vehicles e = (Ok tt, e_fast) ∧
    (∀ r v, r ∈ vehicles (road e_fast) → r ∉ controlled_vehicles e_fast →
            store e_fast !! r = Some v → check_collisions v = false) ∧
    (∀ r, r ∈ controlled_vehicles e_fast →
          ∃ v, store e_fast !! r = Some v ∧ check_collisions v = true) ∧
    e_fast = set_store (λ _, store e_fast) e_base ∧
    (∀ r, store e_fast !! r =
          if decide (r ∈ vehicles (road e_base) ∧ r ∉ controlled_vehicles e_base)
          then set_check_collisions false <$> store e_base !! r
          else store e_base !! r) ∧
    (road_valid e → road_valid e_fast).
Proof.
  intros Hclass Hbase.
  destruct (create_vehicles_checked Hclass e e_base Hbase) as [Hchecked Hvalid].
  destruct (disable_collision_checks_run (vehicles (road e_base)) e_base)
    as (st & Hrun & Hst).
  exists (set_store (λ _, st) e_base).
  split; [| split; [| split; [| split; [| split]]]].
  - unfold HighwayEnvFast._create_vehicles.
    rewrite (bind_ok _ _ _ _ _ Hbase). erewrite bind_ok by reflexivity. exact Hrun.
  - intros r v Hroad Hctl Hv. simpl in *. rewrite Hst in Hv.
    rewrite decide_True in Hv by done.
    destruct (store e_base !! r) as [v0|]; simpl in Hv; [| done].
    by injection Hv as <-.
  - intros r Hctl. simpl in *. rewrite Hst.
    rewrite decide_False by (intros [_ Hn]; done).
    by apply Hchecked.
  - reflexivity.
  - exact Hst.
  - intros Hv r Hr. simpl in *. rewrite Hst.
    destruct (Hvalid Hv r Hr) as [v Hl]. rewrite Hl.
    destruct (decide _); simpl; eauto.
Qed.

End fast.

(** ** Keys that are missing from the configuration *)

Lemma framed_ret {A} (a : A) : framed (mret a).
Proof. intros cfg' e _. done. Qed.

Lemma framed_bind {A B} (m : M A) (f : A → M B) :
  framed m → (∀ a, framed (f a)) → framed (m ≫= f).
Proof.
  intros Hm Hf cfg' e Hagree. destruct (Hm cfg' e Hagree) as [Hrun Hcfg].
  unfold mbind, M_bind. rewrite Hrun.
  destruct (m e) as [[a | x] e1]; simpl in *; [| done].
  rewrite <- Hcfg. apply Hf. by rewrite Hcfg.
Qed.

Lemma framed_lift {A} (r : res A) : framed (lift r).
Proof. intros cfg' e _. done. Qed.

Lemma framed_gets {A} (f : Env → A) :
  (∀ cfg' e, f (with_config cfg' e) = f e) → framed (gets f).
Proof. intros Hf cfg' e _. unfold gets. simpl. by rewrite Hf. Qed.

Lemma framed_print x : framed (print x).
Proof. intros cfg' e _. done. Qed.

Lemma framed_self_vehicle : framed self_vehicle.
Proof.
  intros cfg' e _. unfold self_vehicle. simpl.
  destruct (controlled_vehicles e) as [| r ?]; [done |].
  by destruct (store e !! r).
Qed.

Lemma framed_config_item key : key ∈ subscript_keys → framed (config_item key).
Proof.
  intros Hkey cfg' e [_ Hsub]. unfold config_item, mbind, M_bind, gets, lift, getitem.
  simpl. by rewrite (Hsub key Hkey).
Qed.

Lemma framed_config_range key : key ∈ subscript_keys → framed (config_range key).
Proof.
  intros Hkey. apply framed_bind; [by apply framed_config_item |].
  intros a. apply framed_lift.
Qed.

Lemma framed_config_num key : key ∈ subscript_keys → framed (config_num key).
Proof.
  intros Hkey. apply framed_bind; [by apply framed_config_item |].
  intros a. apply framed_lift.
Qed.

Lemma weighted_sum_agree cfg' cfg acc items :
  agree cfg' cfg →
  HighwayEnv.weighted_sum cfg' acc items = HighwayEnv.weighted_sum cfg acc items.
Proof.
  intros [Hget _]. revert acc.
  induction items as [| [name reward] items IH]; intros acc; simpl; [done |].
  rewrite Hget. destruct (as_num _); simpl; [apply IH | done].
Qed.

Lemma framed_weighted_sum {B} rewards (g : Q → M B) :
  (∀ reward, framed (g reward)) →
  framed (cfg ← gets config;
          reward ← lift (HighwayEnv.weighted_sum cfg 0 rewards); g reward).
Proof.
  intros Hg cfg' e Hagree.
  unfold mbind at 1 3 5, M_bind at 1 3 5. unfold gets. simpl.
  rewrite (weighted_sum_agree _ _ _ _ Hagree).
  apply (framed_bind (lift _) g); [apply framed_lift | done | done].
Qed.

Lemma agree_refl cfg : agree cfg cfg.
Proof. split; done. Qed.

(** A key that is absent and a key that holds the default 0 read alike,
    except by subscript. *)
Lemma agree_insert_zero cfg name :
  name ∉ subscript_keys → cfg !! name = None → agree (<[name := VNum 0]> cfg) cfg.
Proof.
  intros Hname Hnone. split.
  - intros key. unfold dict_get. destruct (decide (name = key)) as [<- | Hne].
    + by rewrite lookup_insert_eq, Hnone.
    + by rewrite lookup_insert_ne.
  - intros key Hkey. apply lookup_insert_ne. by intros ->.
Qed.

Section missing_keys.
Context `{Framework}.
Import HighwayEnv.

Lemma framed_rewards a : framed (_rewards a).
Proof.
  unfold _rewards, self_action.
  repeat first
    [ apply framed_self_vehicle
    | apply framed_ret
    | apply framed_lift
    | apply framed_print
    | apply framed_config_range; unfold subscript_keys; set_solver
    | apply framed_gets; reflexivity
    | apply framed_bind; [| intros ?] ].
Qed.

Lemma framed_reward a : framed (_reward a).
Proof.
  unfold _reward.
  apply framed_bind; [apply framed_rewards |]. intros rewards.
  apply framed_weighted_sum. intros reward.
  apply framed_bind; [apply framed_config_item; unfold subscript_keys; set_solver |].
  intros normalize_reward. destruct (truthy normalize_reward); [| apply framed_ret].
  repeat first
    [ apply framed_lift
    | apply framed_config_num; unfold subscript_keys; set_solver
    | apply framed_bind; [| intros ?] ].
Qed.

End missing_keys.

(** ** The statements on concrete scenarios *)

(** Proves that a concrete environment is readable, by evaluation. *)
Ltac readable := constructor; first [reflexivity | q_neq].

(** The crashed ego vehicle, all weights 0 but the collision weight -50:
    the normalised reward is 0. *)
Lemma reward_combination_witness :
  ∃ rewards reward e',
    @HighwayEnv._rewards (Sample.framework 100) VNone
      (Sample.alone Sample.only_collision (Sample.crash Sample.ego) 0)
    = (Ok rewards, e') ∧
    @HighwayEnv._reward (Sample.framework 100) VNone
      (Sample.alone Sample.only_collision (Sample.crash Sample.ego) 0)
    = (Ok reward, e') ∧
    reward == 0.
Proof.
  destruct (@reward_combination (Sample.framework 100)
              (Sample.alone Sample.only_collision (Sample.crash Sample.ego) 0)
              (Sample.crash Sample.ego) (-40, 40) (0, 30) (0, 30) 0.5
              Sample.only_collision_weights (Some (-50, 0.4 + 0.1)) VNone)
    as (rewards & reward & e' & Hrewards & Hreward & _ & Hzero).
  - readable.
  - q_neq.
  - intros name Hname. unfold term_names in Hname.
    repeat (apply elem_of_cons in Hname as [-> | Hname]; [vm_compute; reflexivity |]).
    by apply elem_of_nil in Hname.
  - apply (normalise_on _ (VBool true) (-50) 0.4 0.1);
      first [vm_compute; reflexivity | q_neq].
  - exists rewards, reward, e'. split; [exact Hrewards |]. split; [exact Hreward |].
    apply (Hzero eq_refl) with (b := (-50, 0.4 + 0.1)); reflexivity.
Defined.

(** The ego vehicle at rest: the evaluator raises. *)
Lemma torque_zero_speed_raises_witness :
  @HighwayEnv._rewards (Sample.framework 100) VNone
    (Sample.alone Sample.defaults (Sample.place 0 0 true) 0)
  = (Raise ZeroDivisionError, Sample.alone Sample.defaults (Sample.place 0 0 true) 0).
Proof.
  apply (@torque_zero_speed_raises (Sample.framework 100) _ (Sample.place 0 0 true)
           (-40, 40) (0, 30) (0, 30) 0.5 VNone).
  - readable.
  - reflexivity.
Defined.

(** The ego vehicle alone on the road under the default configuration:
    with [nan] for the two absent neighbours the safety term is [nan]; with
    a number, here 100, it is the number of the breakdown. *)
Lemma absent_neighbour_unguarded_witness :
  HighwayEnv.safe_distance_reward NaN NaN (0, 30) (0, 30) = Ok NaN ∧
  ∃ rewards e',
    @HighwayEnv._rewards (Sample.framework 100) VNone
      (Sample.alone Sample.defaults Sample.ego 0) = (Ok rewards, e') ∧
    HighwayEnv.safe_distance_reward (Finite 100) (Finite 100) (0, 30) (0, 30)
    = Ok (Finite (term "safe_distance_reward" rewards)).
Proof.
  destruct (@absent_neighbour_unguarded (Sample.framework 100)
              (Sample.alone Sample.defaults Sample.ego 0) Sample.ego
              (-40, 40) (0, 30) (0, 30) 0.5 VNone)
    as ((rewards & e' & Hrun & Hterm) & Hnan & _).
  - readable.
  - q_neq.
  - reflexivity.
  - reflexivity.
  - split; [exact (proj1 (Hnan NaN)) |].
    exists rewards, e'. split; [exact Hrun | exact Hterm].
Defined.

(** C4, the claim as stated fails.  The vehicles reported ahead and behind
    are level with the ego vehicle, so both gaps are 0; under the ranges
    [-30, 30] each gap maps to 0.25 and the safety term is 0.5, not 0. *)
Lemma zero_gaps_positive_safety :
  @front_gap (Cases.reporting (Some (Sample.place 0 20 false))
                (Some (Sample.place 0 20 false))) Cases.level Sample.ego == 0 ∧
  @rear_gap (Cases.reporting (Some (Sample.place 0 20 false))
               (Some (Sample.place 0 20 false))) Cases.level Sample.ego == 0 ∧
  ∃ rewards,
    (@HighwayEnv._rewards
       (Cases.reporting (Some (Sample.place 0 20 false))
          (Some (Sample.place 0 20 false))) VNone Cases.level).1 = Ok rewards ∧
    term "safe_distance_reward" rewards == 0.5.
Proof.
  split; [reflexivity |]. split; [reflexivity |].
  eexists. split; [vm_compute; reflexivity | reflexivity].
Qed.

(** A framework that reports an absent neighbour at distance 0, the ego
    vehicle alone: both gaps are 0 and, under the default ranges, the safety
    term is 0. *)
Lemma safe_distance_reward_range_witness :
  ∃ rewards e',
    @HighwayEnv._rewards (Sample.framework 0) VNone
      (Sample.alone Sample.defaults Sample.ego 0) = (Ok rewards, e') ∧
    (0 <= term "safe_distance_reward" rewards ∧
     term "safe_distance_reward" rewards <= 1) ∧
    term "safe_distance_reward" rewards == 0.
Proof.
  destruct (@safe_distance_reward_range (Sample.framework 0)
              (Sample.alone Sample.defaults Sample.ego 0) Sample.ego
              (-40, 40) (0, 30) (0, 30) 0.5 VNone)
    as (rewards & e' & Hrun & Hbounds & _ & _ & Hzero).
  - readable.
  - q_neq.
  - exists rewards, e'. split; [exact Hrun |]. split; [exact Hbounds |].
    apply Hzero; [vm_compute; reflexivity | vm_compute; reflexivity | |];
      split; vm_compute; congruence.
Defined.

(** Off the road, not crashed, [offroad_terminal] false, at time 40 of 40:
    not terminated, truncated. *)
Lemma episode_lifecycle_witness :
  @HighwayEnv._is_terminated
    (Sample.alone Sample.defaults (Sample.stray Sample.ego) 40)
  = (Ok (VBool false), Sample.alone Sample.defaults (Sample.stray Sample.ego) 40) ∧
  @HighwayEnv._is_truncated
    (Sample.alone Sample.defaults (Sample.stray Sample.ego) 40)
  = (Ok true, Sample.alone Sample.defaults (Sample.stray Sample.ego) 40).
Proof.
  destruct (@episode_lifecycle
              (Sample.alone Sample.defaults (Sample.stray Sample.ego) 40)
              (Sample.stray Sample.ego) false 40)
    as [(_ & _ & Hterm) (truncated & Hrun & _ & Htrue & _)].
  - reflexivity.
  - reflexivity.
  - reflexivity.
  - split; [by apply Hterm |].
    rewrite Hrun. rewrite Htrue; reflexivity.
Defined.

(** Seven vehicles for three groups. *)
Lemma near_split_spec_witness :
  ∃ l, utils.near_split 7 3 = Ok l ∧ length l = 3%nat ∧ total l = 7%Z.
Proof.
  destruct (near_split_spec 7 3 ltac:(lia) ltac:(lia)) as (l & Hl & Hlen & Htot & _).
  exists l. repeat split; assumption.
Defined.

Lemma returned_unit (outcome : res unit * Env) :
  outcome.1 = Ok tt → outcome = (Ok tt, outcome.2).
Proof. destruct outcome as [r e]. simpl. by intros ->. Qed.

(** The fast variant's builder on a blank environment with its defaults. *)
Lemma fast_disables_uncontrolled_checks_witness :
  ∃ e_fast,
    @HighwayEnvFast._create_vehicles (Sample.framework 100)
      (Sample.blank (@HighwayEnvFast.default_config (Sample.framework 100)))
    = (Ok tt, e_fast) ∧
    (∀ r v, r ∈ vehicles (road e_fast) → r ∉ controlled_vehicles e_fast →
            store e_fast !! r = Some v → check_collisions v = false) ∧
    (∀ r, r ∈ controlled_vehicles e_fast →
          ∃ v, store e_fast !! r = Some v ∧ check_collisions v = true) ∧
    e_fast = set_store (λ _, store e_fast) Sample.traffic.
Proof.
  destruct (@fast_disables_uncontrolled_checks (Sample.framework 100)
              (Sample.blank (@HighwayEnvFast.default_config (Sample.framework 100)))
              Sample.traffic)
    as (e_fast & Hrun & Hoff & Hon & Hframe & _).
  - intros rd p h s. reflexivity.
  - apply returned_unit. vm_compute. reflexivity.
  - exists e_fast. repeat split; assumption.
Defined.

(** C8, the claim as stated fails.  Without the key [speed_reward] the reset
    builds the scenario and the evaluator returns a reward, the one of
    weight 0 for the speed term: no error is raised. *)
Lemma missing_weight_is_silently_zero :
  Sample.no_speed_weight !! "speed_reward" = None ∧
  (@HighwayEnv._reset (Sample.framework 100) (Sample.blank Sample.no_speed_weight)).1
  = Ok tt ∧
  ∃ reward,
    (@HighwayEnv._reward (Sample.framework 100) VNone
       (@HighwayEnv._reset (Sample.framework 100)
          (Sample.blank Sample.no_speed_weight)).2).1 = Ok reward ∧
    reward == 150 # 101.
Proof.
  split; [vm_compute; reflexivity |].
  split; [vm_compute; reflexivity |].
  eexists. split; [vm_compute; reflexivity | reflexivity].
Qed.

(** The ego vehicle at speed 25 with the stored action 0.5. *)
Lemma torque_independent_of_speed_witness :
  ∃ rewards e',
    @HighwayEnv._rewards (Sample.framework 100) VNone
      (Sample.alone Sample.defaults Sample.ego 0) = (Ok rewards, e') ∧
    term "torque_reward" rewards
    == np.clip (torque_of_acceleration (commanded 0.5)) 0 1.
Proof.
  destruct (@torque_independent_of_speed (Sample.framework 100)
              (Sample.alone Sample.defaults Sample.ego 0) Sample.ego
              (-40, 40) (0, 30) (0, 30) 0.5 VNone)
    as (_ & _ & rewards & e' & Hrun & _ & Hterm).
  - readable.
  - q_neq.
  - exists rewards, e'. split; assumption.
Defined.

(** * Further properties of the code *)

(** ** Bounds and monotonicity of the reward *)

Lemma lmap_value_mono v v' x :
  x.1 < x.2 → v <= v' → lmap_value v x (0, 1) <= lmap_value v' x (0, 1).
Proof.
  intros Hx Hv. unfold lmap_value. simpl.
  assert ((v - x.1) * (1 - 0) / (x.2 - x.1) <= (v' - x.1) * (1 - 0) / (x.2 - x.1)); [| lra].
  apply Qle_shift_div_l; [lra |].
  assert ((v - x.1) * (1 - 0) / (x.2 - x.1) * (x.2 - x.1) == (v - x.1)) as -> by (field; lra).
  lra.
Qed.

Lemma lmap_value_half_mono v v' x :
  x.1 < x.2 → v <= v' → lmap_value v x (0, 0.5) <= lmap_value v' x (0, 0.5).
Proof.
  intros Hx Hv. unfold lmap_value. simpl.
  assert ((v - x.1) * (0.5 - 0) / (x.2 - x.1) <= (v' - x.1) * (0.5 - 0) / (x.2 - x.1)); [| lra].
  apply Qle_shift_div_l; [lra |].
  assert ((v - x.1) * (0.5 - 0) / (x.2 - x.1) * (x.2 - x.1) == (v - x.1) * 0.5) as -> by (field; lra).
  lra.
Qed.

Lemma clip_mono a b : a <= b → np.clip a 0 1 <= np.clip b 0 1.
Proof.
  intros Hab. unfold np.clip.
  apply Q.min_le_compat_l. by apply Q.max_le_compat_r.
Qed.

Lemma capped_mono f f' : f <= f' → capped f <= capped f'.
Proof.
  intros Hf. rewrite !capped_min. by apply Q.min_le_compat_r.
Qed.

Lemma weight_term_bounds w t :
  0 <= t → t <= 1 → Qmin w 0 <= w * t ∧ w * t <= Qmax w 0.
Proof.
  intros H0 H1. destruct (Qlt_le_dec w 0) as [Hneg | Hpos].
  - rewrite (Q.min_l w 0) by lra. rewrite (Q.max_r w 0) by lra. split; nra.
  - rewrite (Q.min_r w 0) by lra. rewrite (Q.max_l w 0) by lra. split; nra.
Qed.

Lemma float_of_bool_bounds b : 0 <= float_of_bool b ∧ float_of_bool b <= 1.
Proof. destruct b; split; discriminate. Qed.

Lemma combined_bounds w v front rear sr fr rr a0 :
  lower w <= combined w (breakdown v front rear sr fr rr a0) ∧
  combined w (breakdown v front rear sr fr rr a0) <= upper w.
Proof.
  unfold combined, lower, upper. simpl.
  destruct (weight_term_bounds (w "speed_reward") _
              (proj1 (clip_bounds (lmap_value (speed v) sr (0, 1))))
              (proj2 (clip_bounds (lmap_value (speed v) sr (0, 1))))).
  destruct (weight_term_bounds (w "collision_reward") _
              (proj1 (float_of_bool_bounds (crashed v)))
              (proj2 (float_of_bool_bounds (crashed v)))).
  destruct (weight_term_bounds (w "safe_distance_reward") _
              (proj1 (clip_bounds (front_half front fr + rear_half rear rr)))
              (proj2 (clip_bounds (front_half front fr + rear_half rear rr)))).
  destruct (weight_term_bounds (w "on_road_reward") _
              (proj1 (float_of_bool_bounds (on_road v)))
              (proj2 (float_of_bool_bounds (on_road v)))).
  destruct (weight_term_bounds (w "torque_reward") _
              (proj1 (clip_bounds (torque (speed v) a0)))
              (proj2 (clip_bounds (torque (speed v) a0)))).
  split; lra.
Qed.

Section evaluator_more.
Context `{Framework}.
Import HighwayEnv.

(** The scalar reward of a moving ego vehicle. *)
Lemma reward_run e v sr fr rr a0 w bounds a :
  Readable e v sr fr rr a0 → ¬ speed v == 0 →
  weights_of (config e) w → Normalisation (config e) bounds →
  ∃ reward,
    _reward a e = (Ok reward, printed a0 e) ∧
    reward == normalised bounds
                (combined w (breakdown v (front_gap e v) (rear_gap e v) sr fr rr a0)).
Proof.
  intros Hr Hs Hw Hn.
  destruct (weighted_sum_breakdown (config e) w v (front_gap e v) (rear_gap e v)
              sr fr rr a0 Hw) as (reward & Hsum & Hreward).
  unfold _reward.
  rewrite (bind_ok _ _ _ _ _ (rewards_run _ _ _ _ _ _ a Hr Hs)).
  erewrite bind_ok by reflexivity.
  change (config (printed a0 e)) with (config e).
  erewrite bind_ok by (unfold lift; rewrite Hsum; reflexivity).
  destruct Hn as [nv Hk Hf | nv lo hs rl Hk Ht Hlo Hhs Hrl Hp].
  - erewrite bind_ok by (by apply config_item_ok).
    rewrite Hf. eexists. split; [reflexivity |]. simpl. exact Hreward.
  - erewrite bind_ok by (by apply config_item_ok).
    rewrite Ht.
    erewrite bind_ok by (by apply config_num_ok).
    erewrite bind_ok by (by apply config_num_ok).
    erewrite bind_ok by (by apply config_num_ok).
    unfold lift. rewrite lmap_ok by done. eexists. split; [reflexivity |].
    simpl. by rewrite Hreward.
Qed.

(** X9. The reward lies between the sum of the negative weights and the sum
    of the positive weights of the five terms, each term being in [0, 1];
    when [normalize_reward] is set it lies between the images of these two
    sums under the linear map, which need not be 0 and 1. *)
Theorem reward_bounds e v sr fr rr a0 w bounds a :
  Readable e v sr fr rr a0 → ¬ speed v == 0 →
  weights_of (config e) w → Normalisation (config e) bounds →
  ∃ reward e',
    _reward a e = (Ok reward, e') ∧
    match bounds with
    | None => lower w <= reward ∧ reward <= upper w
    | Some b =>
        b.1 < b.2 →
        lmap_value (lower w) b (0, 1) <= reward ∧
        reward <= lmap_value (upper w) b (0, 1)
    end.
Proof.
  intros Hr Hs Hw Hn.
  destruct (reward_run e v sr fr rr a0 w bounds a Hr Hs Hw Hn) as (reward & Hrun & Hval).
  exists reward, (printed a0 e). split; [exact Hrun |].
  pose proof (combined_bounds w v (front_gap e v) (rear_gap e v) sr fr rr a0) as [Hlo Hhi].
  destruct bounds as [b |]; simpl in Hval.
  - intros Hb. rewrite Hval. split; by apply lmap_value_mono.
  - rewrite Hval. done.
Qed.

(** X11. For a speed that is not 0 the total torque is 66 times the stored
    action plus the load torque 23.6398008, and the torque term is its clip
    to [0, 1]: it is 1 for every stored action of at least -0.34 and 0 for
    every stored action of at most -0.36. *)
Theorem torque_reward_is_a_step e v sr fr rr a0 a :
  Readable e v sr fr rr a0 → ¬ speed v == 0 →
  ∃ rewards e',
    _rewards a e = (Ok rewards, e') ∧
    torque (speed v) a0 == 66 * a0 + 23.6398008 ∧
    term "torque_reward" rewards == np.clip (66 * a0 + 23.6398008) 0 1 ∧
    (-0.34 <= a0 → term "torque_reward" rewards == 1) ∧
    (a0 <= -0.36 → term "torque_reward" rewards == 0).
Proof.
  intros Hr Hs. eexists _, _. split; [by apply rewards_run |]. simpl term.
  assert (torque (speed v) a0 == 66 * a0 + 23.6398008) as Ht.
  { rewrite torque_constant by done.
    unfold torque_of_acceleration, commanded, lmap_value, ACCELERATION_RANGE,
      wheel_mass, wheel_radius, load_torque, rolling_resistance, normal_force,
      rolling_resistance_coefficient, vehicle_mass, gravity, wheel_radius.
    simpl. field. }
  split; [exact Ht |]. split; [by rewrite Ht |].
  split; intros Ha.
  - apply clip_high. rewrite Ht. lra.
  - apply clip_low. rewrite Ht. lra.
Qed.

(** X12. The speed term is the ego speed mapped from [reward_speed_range]
    onto [0, 1] and clipped: 0 at or below the range minimum, 1 at or above
    the maximum, and never larger than it would be at a higher speed. *)
Theorem speed_reward_saturates e v sr fr rr a0 a :
  Readable e v sr fr rr a0 → ¬ speed v == 0 → sr.1 < sr.2 →
  ∃ rewards e',
    _rewards a e = (Ok rewards, e') ∧
    term "speed_reward" rewards = np.clip (lmap_value (speed v) sr (0, 1)) 0 1 ∧
    (speed v <= sr.1 → term "speed_reward" rewards == 0) ∧
    (sr.2 <= speed v → term "speed_reward" rewards == 1) ∧
    (∀ faster, speed v <= faster →
       term "speed_reward" rewards <= np.clip (lmap_value faster sr (0, 1)) 0 1).
Proof.
  intros Hr Hs Hsr. eexists _, _. split; [by apply rewards_run |]. simpl term.
  split; [reflexivity |]. split; [| split].
  - intros Hv. apply clip_low. apply lmap_value_low; [done | discriminate | done].
  - intros Hv. apply clip_high. apply lmap_value_high; [done | discriminate | done].
  - intros faster Hv. apply clip_mono. by apply lmap_value_mono.
Qed.

(** X13. The safety term does not decrease when the forward gap or the
    absolute rear gap grows. *)
Theorem safe_distance_reward_monotone e v sr fr rr a0 a :
  Readable e v sr fr rr a0 → ¬ speed v == 0 → fr.1 < fr.2 → rr.1 < rr.2 →
  ∃ rewards e',
    _rewards a e = (Ok rewards, e') ∧
    ∀ front rear,
      front_gap e v <= front → Qabs (rear_gap e v) <= Qabs rear →
      term "safe_distance_reward" rewards
      <= np.clip (front_half front fr + rear_half rear rr) 0 1.
Proof.
  intros Hr Hs Hf Hrr. eexists _, _. split; [by apply rewards_run |]. simpl term.
  intros front rear Hfront Hrear. apply clip_mono.
  assert (front_half (front_gap e v) fr <= front_half front fr).
  { unfold front_half. apply lmap_value_half_mono; [done |]. by apply capped_mono. }
  assert (rear_half (rear_gap e v) rr <= rear_half rear rr).
  { unfold rear_half. by apply lmap_value_half_mono. }
  lra.
Qed.

(** X14. The two halves of the safety term are summed before the only
    clip: a rear gap of at least the range maximum plus the range width
    gives a rear half of at least 1, and the safety term is 1 however small
    the forward gap is, down to the minimum of its range. *)
Theorem far_rear_hides_close_front e v sr fr rr a0 a :
  Readable e v sr fr rr a0 → ¬ speed v == 0 → fr.1 < fr.2 → rr.1 < rr.2 →
  fr.1 <= capped (front_gap e v) →
  rr.2 + (rr.2 - rr.1) <= Qabs (rear_gap e v) →
  ∃ rewards e',
    _rewards a e = (Ok rewards, e') ∧
    term "safe_distance_reward" rewards == 1.
Proof.
  intros Hr Hs Hf Hrr Hfront Hrear. eexists _, _. split; [by apply rewards_run |].
  simpl term. apply clip_high.
  assert (0 <= front_half (front_gap e v) fr).
  { unfold front_half, lmap_value. simpl.
    assert (0 <= (capped (front_gap e v) - fr.1) * (0.5 - 0) / (fr.2 - fr.1)); [| lra].
    apply Qle_shift_div_l; [lra |]. nra. }
  assert (1 <= rear_half (rear_gap e v) rr).
  { unfold rear_half, lmap_value. simpl.
    assert (1 <= (Qabs (rear_gap e v) - rr.1) * (0.5 - 0) / (rr.2 - rr.1)); [| lra].
    apply Qle_shift_div_l; [lra |]. nra. }
  lra.
Qed.

End evaluator_more.

(** ** What the evaluator and the tests change *)

Lemma quiet_ret {A} (a : A) : quiet (mret a).
Proof. intros e. done. Qed.

Lemma quiet_lift {A} (r : res A) : quiet (lift r).
Proof. intros e. done. Qed.

Lemma quiet_gets {A} (f : Env → A) : quiet (gets f).
Proof. intros e. done. Qed.

Lemma quiet_bind {A B} (m : M A) (f : A → M B) :
  quiet m → (∀ a, quiet (f a)) → quiet (m ≫= f).
Proof.
  intros Hm Hf e. specialize (Hm e). unfold mbind, M_bind.
  destruct (m e) as [[a | x] e1]; simpl in *; subst; [apply Hf | done].
Qed.

Lemma quiet_self_vehicle : quiet self_vehicle.
Proof.
  intros e. unfold self_vehicle.
  destruct (controlled_vehicles e) as [| r ?]; [done |]. by destruct (store e !! r).
Qed.

Lemma quiet_config_item key : quiet (config_item key).
Proof. apply quiet_bind; [apply quiet_gets | intros; apply quiet_lift]. Qed.

Lemma quiet_config_num key : quiet (config_num key).
Proof. apply quiet_bind; [apply quiet_config_item | intros; apply quiet_lift]. Qed.

Lemma quiet_config_range key : quiet (config_range key).
Proof. apply quiet_bind; [apply quiet_config_item | intros; apply quiet_lift]. Qed.

Lemma prints_on_return_bind {A B} (m : M A) (f : A → M B) :
  quiet m → (∀ a, prints_on_return (f a)) → prints_on_return (m ≫= f).
Proof.
  intros Hm Hf e. specialize (Hm e). unfold mbind, M_bind.
  destruct (m e) as [[a | x] e1]; simpl in *; subst; [apply Hf | done].
Qed.

Lemma prints_on_return_print {A} x (a : A) :
  prints_on_return (_ ← print x; mret a).
Proof. intros e. simpl. by exists x. Qed.

Lemma set_stdout_nil e : set_stdout (λ out, out ++ []) e = e.
Proof. destruct e. unfold set_stdout. simpl. by rewrite app_nil_r. Qed.

Lemma set_stdout_app e l1 l2 :
  set_stdout (λ out, out ++ l2) (set_stdout (λ out, out ++ l1) e)
  = set_stdout (λ out, out ++ (l1 ++ l2)) e.
Proof. unfold set_stdout. simpl. by rewrite app_assoc. Qed.

Lemma only_prints_quiet {A} (m : M A) : quiet m → only_prints m.
Proof. intros Hm e. exists []. by rewrite set_stdout_nil. Qed.

Lemma only_prints_bind {A B} (m : M A) (f : A → M B) :
  only_prints m → (∀ a, only_prints (f a)) → only_prints (m ≫= f).
Proof.
  intros Hm Hf e. destruct (Hm e) as [l1 H1]. unfold mbind, M_bind.
  destruct (m e) as [[a | x] e1]; simpl in *; subst; [| by exists l1].
  destruct (Hf a (set_stdout (λ out, out ++ l1) e)) as [l2 H2].
  exists (l1 ++ l2). by rewrite H2, set_stdout_app.
Qed.

Lemma only_prints_of_return {A} (m : M A) : prints_on_return m → only_prints m.
Proof.
  intros Hm e. specialize (Hm e). destruct (m e) as [[a | x] e1]; simpl.
  - destruct Hm as [line ->]. by exists [line].
  - subst. exists []. by rewrite set_stdout_nil.
Qed.

Section frames.
Context `{Framework}.
Import HighwayEnv.

Lemma rewards_prints_on_return a : prints_on_return (_rewards a).
Proof.
  unfold _rewards, self_action.
  repeat first
    [ apply prints_on_return_print
    | apply prints_on_return_bind;
        [ first [ apply quiet_self_vehicle | apply quiet_gets | apply quiet_lift
                | apply quiet_config_range ]
        | intros ? ] ].
Qed.

(** X15. The breakdown prints one line, the acceleration, when it returns
    and nothing when it raises; the reward changes nothing but the output;
    the termination and truncation tests change nothing, whether they
    return or raise. *)
Theorem evaluation_changes_only_stdout a e :
  (match _rewards a e with
   | (Ok _, e') => ∃ line, e' = set_stdout (λ out, out ++ [line]) e
   | (Raise _, e') => e' = e
   end) ∧
  (∃ lines, (_reward a e).2 = set_stdout (λ out, out ++ lines) e) ∧
  (_is_terminated e).2 = e ∧
  (_is_truncated e).2 = e.
Proof.
  split; [apply rewards_prints_on_return |]. split; [| split].
  - revert e. change (only_prints (_reward a)). unfold _reward.
    apply only_prints_bind; [apply only_prints_of_return, rewards_prints_on_return |].
    intros rewards. apply only_prints_quiet.
    repeat first
      [ apply quiet_ret | apply quiet_lift | apply quiet_gets
      | apply quiet_config_item | apply quiet_config_num
      | apply quiet_bind; [| intros ?]
      | match goal with |- quiet (if ?b then _ else _) => destruct b end ].
  - revert e. change (quiet _is_terminated). unfold _is_terminated.
    repeat first
      [ apply quiet_ret | apply quiet_self_vehicle | apply quiet_config_item
      | apply quiet_bind; [| intros ?]
      | match goal with |- quiet (if ?b then _ else _) => destruct b end ].
  - revert e. change (quiet _is_truncated). unfold _is_truncated.
    repeat first
      [ apply quiet_ret | apply quiet_gets | apply quiet_config_num
      | apply quiet_bind; [| intros ?] ].
Qed.

(** X16. The termination test is [crashed or (offroad_terminal and not
    on_road)] with Python's short circuit: for a crashed vehicle it is
    [True] and [offroad_terminal] is not read, so a missing key goes
    unnoticed; for a vehicle that has not crashed a missing key raises
    [KeyError]; and the value returned is the operand that decided, so it is
    the configured [offroad_terminal] itself, not necessarily a boolean,
    when that is false. *)
Theorem termination_short_circuits e v :
  self_vehicle e = (Ok v, e) →
  (crashed v = true → _is_terminated e = (Ok (VBool true), e)) ∧
  (crashed v = false → config e !! "offroad_terminal" = None →
   _is_terminated e = (Raise (KeyError "offroad_terminal"), e)) ∧
  (∀ offroad_terminal,
     config e !! "offroad_terminal" = Some offroad_terminal →
     ∃ value,
       _is_terminated e = (Ok value, e) ∧
       truthy value = crashed v || truthy offroad_terminal && negb (on_road v) ∧
       (crashed v = false → truthy offroad_terminal = false →
        value = offroad_terminal)).
Proof.
  intros Hv. unfold _is_terminated. rewrite (bind_ok _ _ _ _ _ Hv).
  split; [| split].
  - by intros ->.
  - intros -> Hnone. erewrite bind_raise; [reflexivity |]. by apply config_item_missing.
  - intros ot Hot. destruct (crashed v).
    + eexists. split; [reflexivity |]. split; [reflexivity | done].
    + rewrite (bind_ok _ _ _ _ _ (config_item_ok _ _ _ Hot)).
      destruct (truthy ot) eqn:Et.
      * rewrite (bind_ok _ _ _ _ _ Hv). eexists. split; [reflexivity |].
        split; [reflexivity | done].
      * eexists. split; [reflexivity |]. split; [by rewrite Et | done].
Qed.

End frames.

(** ** The layers of the configuration *)

Lemma display_lookup_other items (d : gmap string PyVal) key :
  key ∉ items.*1 → foldl (λ d kv, <[kv.1 := kv.2]> d) d items !! key = d !! key.
Proof.
  revert d. induction items as [| [k x] items IH]; intros d Hkey; [done |].
  apply not_elem_of_cons in Hkey as [Hne Hrest]. cbn [foldl].
  rewrite IH by done. by apply lookup_insert_ne.
Qed.

Lemma dict_display_None items key : key ∉ items.*1 → dict_display items !! key = None.
Proof. intros Hkey. unfold dict_display. by rewrite display_lookup_other. Qed.

Lemma dict_update_other d other key :
  other !! key = None → dict_update d other !! key = d !! key.
Proof. intros Hnone. unfold dict_update. by apply lookup_union_r. Qed.

Lemma dict_update_own d other key x :
  other !! key = Some x → dict_update d other !! key = Some x.
Proof. intros Hsome. unfold dict_update. by apply lookup_union_Some_l. Qed.

(** A key of the display has the display's value whatever the base class
    defines. *)
Lemma default_config_own (fw base : Framework) key :
  key ∈ highway_keys →
  is_Some (@HighwayEnv.default_config fw !! key) ∧
  @HighwayEnv.default_config base !! key = @HighwayEnv.default_config fw !! key.
Proof.
  intros Hkey. unfold highway_keys in Hkey. unfold HighwayEnv.default_config.
  repeat (apply elem_of_cons in Hkey as [-> | Hkey];
          [split; [eexists |]; (erewrite !dict_update_own by (vm_compute; reflexivity));
           reflexivity |]).
  by apply elem_of_nil in Hkey.
Qed.

(** X1. The default configuration is the base class's configuration updated
    with the dictionary display: a key outside the display keeps the value
    of the base class, a key of the display is defined and has the display's
    value whatever the base class defines, and [collision_reward], which the
    display lists twice (-1, then -50), has the later value -50. *)
Theorem default_config_layers (fw : Framework) :
  (∀ key, key ∉ highway_keys →
     @HighwayEnv.default_config fw !! key = @abstract_default_config fw !! key) ∧
  (∀ (base : Framework) key, key ∈ highway_keys →
     is_Some (@HighwayEnv.default_config fw !! key) ∧
     @HighwayEnv.default_config base !! key = @HighwayEnv.default_config fw !! key) ∧
  @HighwayEnv.default_config fw !! "collision_reward" = Some (VNum (-50)).
Proof.
  split; [| split].
  - intros key Hkey. unfold HighwayEnv.default_config.
    apply dict_update_other. by apply dict_display_None.
  - apply default_config_own.
  - unfold HighwayEnv.default_config. apply dict_update_own. vm_compute. reflexivity.
Qed.

Section framed_by_facts.
Variable R : relation (gmap string PyVal).
Hypothesis R_subscripts :
  ∀ cfg' cfg, R cfg' cfg → ∀ key, key ∈ subscript_keys → cfg' !! key = cfg !! key.

Lemma framed_by_ret {A} (a : A) : framed_by R (mret a).
Proof. intros cfg' e _. done. Qed.

Lemma framed_by_lift {A} (r : res A) : framed_by R (lift r).
Proof. intros cfg' e _. done. Qed.

Lemma framed_by_print x : framed_by R (print x).
Proof. intros cfg' e _. done. Qed.

Lemma framed_by_gets {A} (f : Env → A) :
  (∀ cfg' e, f (with_config cfg' e) = f e) → framed_by R (gets f).
Proof. intros Hf cfg' e _. unfold gets. simpl. by rewrite Hf. Qed.

Lemma framed_by_self_vehicle : framed_by R self_vehicle.
Proof.
  intros cfg' e _. unfold self_vehicle. simpl.
  destruct (controlled_vehicles e) as [| r ?]; [done |].
  by destruct (store e !! r).
Qed.

(** The continuation may rely on the value having been returned. *)
Lemma framed_by_bind {A B} (m : M A) (f : A → M B) :
  framed_by R m →
  (∀ a, (∃ e e', m e = (Ok a, e')) → framed_by R (f a)) →
  framed_by R (m ≫= f).
Proof.
  intros Hm Hf cfg' e HR. destruct (Hm cfg' e HR) as [Hrun Hcfg].
  unfold mbind, M_bind. rewrite Hrun.
  destruct (m e) as [[a | x] e1] eqn:E; simpl in *; [| done].
  rewrite <- Hcfg. apply Hf; [by eauto | by rewrite Hcfg].
Qed.

Lemma framed_by_config_item key : key ∈ subscript_keys → framed_by R (config_item key).
Proof.
  intros Hkey cfg' e HR. unfold config_item, mbind, M_bind, gets, lift, getitem.
  simpl. by rewrite (R_subscripts _ _ HR key Hkey).
Qed.

Lemma framed_by_config_range key : key ∈ subscript_keys → framed_by R (config_range key).
Proof.
  intros Hkey. apply framed_by_bind; [by apply framed_by_config_item |].
  intros a _. apply framed_by_lift.
Qed.

Lemma framed_by_config_num key : key ∈ subscript_keys → framed_by R (config_num key).
Proof.
  intros Hkey. apply framed_by_bind; [by apply framed_by_config_item |].
  intros a _. apply framed_by_lift.
Qed.

End framed_by_facts.

Lemma weighted_sum_same cfg' cfg acc items :
  same_for_rewards cfg' cfg → items.*1 ⊆ term_names →
  HighwayEnv.weighted_sum cfg' acc items = HighwayEnv.weighted_sum cfg acc items.
Proof.
  intros [Hget _]. revert acc.
  induction items as [| [name reward] items IH]; intros acc Hnames; simpl; [done |].
  rewrite Hget by (apply Hnames; simpl; by left).
  destruct (as_num _); simpl; [| done].
  apply IH. intros key Hkey. apply Hnames. simpl. by right.
Qed.

Section fast_preset.
Context `{Framework}.
Import HighwayEnv.

(** A breakdown that was returned has the five terms, in order. *)
Lemma rewards_names a e rewards e' :
  _rewards a e = (Ok rewards, e') → rewards.*1 = term_names.
Proof.
  unfold _rewards. intros Hrun.
  repeat (apply bind_inv in Hrun as (? & ? & _ & Hrun)).
  by injection Hrun as <- _.
Qed.

Lemma same_for_rewards_subscripts cfg' cfg :
  same_for_rewards cfg' cfg → ∀ key, key ∈ subscript_keys → cfg' !! key = cfg !! key.
Proof. by intros [_ Hsub]. Qed.

Lemma rewards_framed_by a : framed_by same_for_rewards (_rewards a).
Proof.
  pose proof same_for_rewards_subscripts as HR.
  unfold _rewards, self_action.
  repeat first
    [ apply framed_by_self_vehicle
    | apply framed_by_ret
    | apply framed_by_lift
    | apply framed_by_print
    | apply (framed_by_config_range _ HR); unfold subscript_keys; set_solver
    | apply framed_by_gets; reflexivity
    | apply framed_by_bind; [| intros ? _] ].
Qed.

Lemma weighted_sum_framed_by {B} rewards (g : Q → M B) :
  rewards.*1 ⊆ term_names →
  (∀ reward, framed_by same_for_rewards (g reward)) →
  framed_by same_for_rewards
    (cfg ← gets config; reward ← lift (weighted_sum cfg 0 rewards); g reward).
Proof.
  intros Hnames Hg cfg' e Hsame.
  unfold mbind at 1 3 5, M_bind at 1 3 5. unfold gets. simpl.
  rewrite (weighted_sum_same cfg' (config e)) by done.
  apply (framed_by_bind same_for_rewards (lift _) g);
    [apply framed_by_lift | by intros | done].
Qed.

Lemma reward_framed_by a : framed_by same_for_rewards (_reward a).
Proof.
  pose proof same_for_rewards_subscripts as HR.
  unfold _reward.
  apply framed_by_bind; [apply rewards_framed_by |]. intros rewards (e0 & e1 & Hrun).
  apply rewards_names in Hrun.
  apply weighted_sum_framed_by; [by rewrite Hrun |]. intros reward.
  apply framed_by_bind;
    [apply (framed_by_config_item _ HR); unfold subscript_keys; set_solver |].
  intros normalize_reward _.
  destruct (truthy normalize_reward); [| apply framed_by_ret].
  repeat first
    [ apply framed_by_lift
    | apply (framed_by_config_num _ HR); unfold subscript_keys; set_solver
    | apply framed_by_bind; [| intros ? _] ].
Qed.

Lemma fast_config_other key :
  key ∉ fast_keys →
  HighwayEnvFast.default_config !! key = HighwayEnv.default_config !! key.
Proof.
  intros Hkey. unfold HighwayEnvFast.default_config.
  apply dict_update_other. by apply dict_display_None.
Qed.

(** X2. The configuration of the fast variant differs from the one of
    [HighwayEnv] on the five keys it overrides only ([simulation_frequency]
    5, [lanes_count] 3, [vehicles_count] 20, [duration] 30, [ego_spacing]
    1.5).  The reward and the termination test read none of them: in every
    state they give the same result under both default configurations. *)
Theorem fast_preset_keeps_the_reward a e :
  (∀ key, key ∉ fast_keys →
     HighwayEnvFast.default_config !! key = HighwayEnv.default_config !! key) ∧
  (HighwayEnvFast.default_config !! "simulation_frequency" = Some (VNum 5) ∧
   HighwayEnvFast.default_config !! "lanes_count" = Some (VNum 3) ∧
   HighwayEnvFast.default_config !! "vehicles_count" = Some (VNum 20) ∧
   HighwayEnvFast.default_config !! "duration" = Some (VNum 30) ∧
   HighwayEnvFast.default_config !! "ego_spacing" = Some (VNum 1.5)) ∧
  _reward a (with_config HighwayEnvFast.default_config e)
  = ((_reward a (with_config default_config e)).1,
     with_config HighwayEnvFast.default_config
       (_reward a (with_config default_config e)).2) ∧
  (_is_terminated (with_config HighwayEnvFast.default_config e)).1
  = (_is_terminated (with_config default_config e)).1.
Proof.
  split; [apply fast_config_other |]. split.
  { unfold HighwayEnvFast.default_config.
    repeat split; apply dict_update_own; vm_compute; reflexivity. }
  split.
  - apply (reward_framed_by a HighwayEnvFast.default_config
             (with_config default_config e)).
    split; intros key Hkey.
    + unfold dict_get. rewrite fast_config_other; [done |].
      unfold term_names in Hkey. unfold fast_keys. intros Hfast.
      repeat (apply elem_of_cons in Hkey as [-> | Hkey];
              [repeat (apply elem_of_cons in Hfast as [[=] | Hfast]);
               by apply elem_of_nil in Hfast |]).
      by apply elem_of_nil in Hkey.
    + apply fast_config_other.
      unfold subscript_keys in Hkey. unfold fast_keys. intros Hfast.
      repeat (apply elem_of_cons in Hkey as [-> | Hkey];
              [repeat (apply elem_of_cons in Hfast as [[=] | Hfast]);
               by apply elem_of_nil in Hfast |]).
      by apply elem_of_nil in Hkey.
  - unfold _is_terminated, self_vehicle, config_item, mbind, M_bind, gets, lift,
      getitem, with_config.
    cbn [config store road controlled_vehicles fst snd].
    destruct (controlled_vehicles e) as [| r ?]; [done |].
    destruct (store e !! r) as [v |]; [| done].
    destruct (crashed v); [done |].
    cbn [config store road controlled_vehicles fst snd].
    rewrite fast_config_other
      by (unfold fast_keys; intros Hfast;
          repeat (apply elem_of_cons in Hfast as [[=] | Hfast]);
          by apply elem_of_nil in Hfast).
    destruct (default_config !! "offroad_terminal") as [ot |]; [| done].
    cbn [fst snd]. destruct (truthy ot); [| done].
    cbn [config store road controlled_vehicles fst snd].
    destruct (store e !! r); done.
Qed.

End fast_preset.

(** ** What the builders add *)

Lemma Built_refl e : Built e e [] [].
Proof.
  constructor; try done; try (by rewrite app_nil_r).
  - intros r Hr. by apply elem_of_nil in Hr.
  - constructor.
Qed.

Lemma Built_trans e1 e2 e3 c1 a1 c2 a2 :
  Built e1 e2 c1 a1 → Built e2 e3 c2 a2 → Built e1 e3 (c1 ++ c2) (a1 ++ a2).
Proof.
  intros B1 B2. constructor.
  - by rewrite (built_config _ _ _ _ B2), (built_config _ _ _ _ B1).
  - by rewrite (built_time _ _ _ _ B2), (built_time _ _ _ _ B1).
  - by rewrite (built_action _ _ _ _ B2), (built_action _ _ _ _ B1).
  - by rewrite (built_stdout _ _ _ _ B2), (built_stdout _ _ _ _ B1).
  - by rewrite (built_network _ _ _ _ B2), (built_network _ _ _ _ B1).
  - by rewrite (built_history _ _ _ _ B2), (built_history _ _ _ _ B1).
  - etrans; [apply (built_store _ _ _ _ B1) | apply (built_store _ _ _ _ B2)].
  - rewrite (built_road _ _ _ _ B2), (built_road _ _ _ _ B1). by rewrite app_assoc.
  - rewrite (built_controlled _ _ _ _ B2), (built_controlled _ _ _ _ B1).
    by rewrite app_assoc.
  - apply sublist_app; [apply (built_sublist _ _ _ _ B1) | apply (built_sublist _ _ _ _ B2)].
  - intros r Hr. apply elem_of_app in Hr as [Hr | Hr].
    + destruct (built_fresh _ _ _ _ B1 r Hr) as [Hnew [v Hv]]. split; [done |].
      exists v. by apply (lookup_weaken _ _ _ _ Hv (built_store _ _ _ _ B2)).
    + destruct (built_fresh _ _ _ _ B2 r Hr) as [Hnew Hv]. split; [| done].
      destruct (store e1 !! r) as [v |] eqn:E; [| done].
      by rewrite (lookup_weaken _ _ _ _ E (built_store _ _ _ _ B1)) in Hnew.
  - apply NoDup_app. split; [apply (built_distinct _ _ _ _ B1) |].
    split; [| apply (built_distinct _ _ _ _ B2)].
    intros r Hr1 Hr2.
    destruct (built_fresh _ _ _ _ B1 r Hr1) as [_ [v Hv]].
    destruct (built_fresh _ _ _ _ B2 r Hr2) as [Hnew _]. congruence.
Qed.

(** Closes the goals of [Built] for one object [r] made and put on the road. *)
Ltac built_one Hfresh :=
  constructor; simpl; try done;
  first
    [ by apply insert_subseteq
    | by rewrite app_nil_r
    | by apply sublist_nil_l
    | by (intros ? Hx; apply list_elem_of_singleton in Hx as ->;
          split; [done |]; rewrite lookup_insert_eq; eauto)
    | apply NoDup_singleton ].

Section builders_more.
Context `{Framework}.

Lemma create_other_built cls e e' :
  HighwayEnv.create_other cls e = (Ok tt, e') → ∃ r, Built e e' [] [r].
Proof.
  unfold HighwayEnv.create_other. intros Hrun. run_inv Hrun.
  match goal with Hf : store _ !! ?r = None |- _ => rename Hf into Hfresh; exists r end.
  simpl in Hfresh. built_one Hfresh.
Qed.

Lemma create_others_built cls n e e' :
  HighwayEnv.create_others cls n e = (Ok tt, e') →
  ∃ added, Built e e' [] added ∧ length added = n.
Proof.
  revert e. induction n as [| n IH]; intros e Hrun; simpl in Hrun.
  - injection Hrun as <-. exists []. split; [apply Built_refl | done].
  - apply bind_inv in Hrun as ([] & e1 & Hone & Hrest).
    apply create_other_built in Hone as [r B1].
    apply IH in Hrest as (added & B2 & Hlen).
    exists ([r] ++ added). split; [| by rewrite length_app, Hlen].
    change (@nil ref) with (@nil ref ++ []). by eapply Built_trans.
Qed.

Lemma create_group_built cls others e e' :
  HighwayEnv.create_group cls others e = (Ok tt, e') →
  ∃ r added, Built e e' [r] (r :: added) ∧ length added = Z.to_nat others.
Proof.
  unfold HighwayEnv.create_group. intros Hrun. run_inv Hrun.
  match goal with Hf : store _ !! ?r = None |- _ => rename Hf into Hfresh end.
  simpl in Hfresh.
  apply create_others_built in Hrun as (added & B2 & Hlen).
  eexists _, added. split; [| exact Hlen].
  change (?r :: added) with ([r] ++ added).
  rewrite <- (app_nil_r [_]) at 1.
  eapply Built_trans; [| exact B2].
  built_one Hfresh.
Qed.

Lemma create_groups_built cls groups e e' :
  HighwayEnv.create_groups cls groups e = (Ok tt, e') →
  ∃ ctrl added,
    Built e e' ctrl added ∧ length ctrl = length groups ∧
    length added = (length groups + traffic_of groups)%nat.
Proof.
  revert e. induction groups as [| others groups IH]; intros e Hrun; simpl in Hrun.
  - injection Hrun as <-. exists [], []. split; [apply Built_refl | done].
  - apply bind_inv in Hrun as ([] & e1 & Hone & Hrest).
    apply create_group_built in Hone as (r & added1 & B1 & Hlen1).
    apply IH in Hrest as (ctrl & added2 & B2 & Hc & Hlen2).
    exists ([r] ++ ctrl), ((r :: added1) ++ added2).
    split; [by eapply Built_trans |]. split; [simpl; by rewrite Hc |].
    rewrite length_app. simpl. rewrite Hlen1, Hlen2. lia.
Qed.

(** The base builder, from the environment whose controlled list it has
    just emptied. *)
Lemma create_vehicles_built e e' :
  HighwayEnv._create_vehicles e = (Ok tt, e') →
  ∃ vehicles_count controlled groups ctrl added,
    config_int "vehicles_count" e = (Ok vehicles_count, e) ∧
    config_int "controlled_vehicles" e = (Ok controlled, e) ∧
    utils.near_split vehicles_count controlled = Ok groups ∧
    Built (set_controlled_vehicles (λ _, []) e) e' ctrl added ∧
    length ctrl = length groups ∧
    length added = (length groups + traffic_of groups)%nat.
Proof.
  unfold HighwayEnv._create_vehicles. intros Hrun.
  apply bind_inv in Hrun as (path & e1 & Hpath & Hrun).
  pose proof (config_item_inv _ _ _ _ Hpath) as ->.
  apply bind_inv in Hrun as (cls & e1 & Hcls & Hrun).
  apply lift_inv in Hcls as [_ ->].
  apply bind_inv in Hrun as (n & e1 & Hn & Hrun).
  pose proof (config_int_inv _ _ _ _ Hn) as ->.
  apply bind_inv in Hrun as (b & e1 & Hb & Hrun).
  pose proof (config_int_inv _ _ _ _ Hb) as ->.
  apply bind_inv in Hrun as (groups & e1 & Hsplit & Hrun).
  apply lift_inv in Hsplit as [Hsplit ->].
  apply bind_inv in Hrun as ([] & e1 & Hset & Hrun).
  apply modify_inv in Hset as ->.
  apply create_groups_built in Hrun as (ctrl & added & HB & Hc & Hlen).
  by exists n, b, groups, ctrl, added.
Qed.

(** X3. When the builder returns, it has made one controlled vehicle for
    each group of [near_split(vehicles_count, controlled_vehicles)] and, for
    a group of size [others], [others] vehicles of traffic: the controlled
    list has as many entries as there are groups, the road's list has grown
    by the groups and their traffic, and the controlled vehicles are
    distinct objects, all on the road. *)
Theorem create_vehicles_counts e e' :
  HighwayEnv._create_vehicles e = (Ok tt, e') →
  ∃ vehicles_count controlled groups,
    config_int "vehicles_count" e = (Ok vehicles_count, e) ∧
    config_int "controlled_vehicles" e = (Ok controlled, e) ∧
    utils.near_split vehicles_count controlled = Ok groups ∧
    length (controlled_vehicles e') = length groups ∧
    length (vehicles (road e'))
    = (length (vehicles (road e)) + length groups + traffic_of groups)%nat ∧
    NoDup (controlled_vehicles e') ∧
    controlled_vehicles e' ⊆ vehicles (road e').
Proof.
  intros Hrun.
  apply create_vehicles_built in Hrun
    as (n & b & groups & ctrl & added & Hn & Hb & Hsplit & HB & Hc & Hlen).
  exists n, b, groups. split; [done |]. split; [done |]. split; [done |].
  pose proof (built_controlled _ _ _ _ HB) as Hctl. simpl in Hctl.
  pose proof (built_road _ _ _ _ HB) as Hroad. simpl in Hroad.
  rewrite Hctl, Hroad. split; [done |].
  split; [rewrite length_app; lia |]. split.
  - apply (sublist_NoDup _ added);
      [apply (built_distinct _ _ _ _ HB) | apply (built_sublist _ _ _ _ HB)].
  - intros r Hr. apply elem_of_app. right.
    by apply (sublist_subseteq _ _ (built_sublist _ _ _ _ HB)).
Qed.

(** X4. The builder only adds: configuration, time, stored action, output,
    network and history flag are unchanged; every object of the store is
    still there, unchanged; the road's list is the old list followed by the
    new vehicles, which are distinct objects that did not exist before; and
    the controlled list, which the builder resets, holds new vehicles
    only. *)
Theorem create_vehicles_keeps_what_exists e e' :
  HighwayEnv._create_vehicles e = (Ok tt, e') →
  (config e' = config e ∧ time e' = time e ∧ action e' = action e ∧
   stdout e' = stdout e ∧ network (road e') = network (road e) ∧
   record_history (road e') = record_history (road e)) ∧
  (∀ r v, store e !! r = Some v → store e' !! r = Some v) ∧
  ∃ added,
    vehicles (road e') = vehicles (road e) ++ added ∧
    NoDup added ∧
    (∀ r, r ∈ added → store e !! r = None ∧ is_Some (store e' !! r)) ∧
    (∀ r, r ∈ controlled_vehicles e' → r ∈ added).
Proof.
  intros Hrun.
  apply create_vehicles_built in Hrun
    as (n & b & groups & ctrl & added & _ & _ & _ & HB & _ & _).
  destruct HB as [? ? ? ? ? ? Hstore Hroad Hctl Hsub Hfresh Hdistinct].
  simpl in *. split; [done |]. split.
  - intros r v Hv. by apply (lookup_weaken _ _ _ _ Hv Hstore).
  - exists added. split; [done |]. split; [done |]. split; [done |].
    intros r Hr. rewrite Hctl in Hr. by apply (sublist_subseteq _ _ Hsub).
Qed.

(** [_create_road] replaces the road by an empty one and touches nothing
    else. *)
Lemma create_road_inv e e' :
  HighwayEnv._create_road e = (Ok tt, e') →
  ∃ lanes_count show,
    config e !! "lanes_count" = Some lanes_count ∧
    e' = set_road (λ _, mkRoad (straight_road_network lanes_count 30) [] show) e.
Proof.
  unfold HighwayEnv._create_road. intros Hrun.
  apply bind_inv in Hrun as (lanes_count & e1 & Hlanes & Hrun).
  pose proof (config_item_inv _ _ _ _ Hlanes) as ->.
  apply bind_inv in Hrun as (show & e1 & Hshow & Hrun).
  pose proof (config_item_inv _ _ _ _ Hshow) as ->.
  apply modify_inv in Hrun as ->.
  exists lanes_count, show. split; [| done].
  unfold config_item in Hlanes. apply bind_inv in Hlanes as (cfg & e1 & Hg & Hl).
  apply gets_inv in Hg as [-> ->]. apply lift_inv in Hl as [Hl _].
  unfold getitem in Hl. by destruct (config e !! "lanes_count") as [x |]; simplify_eq.
Qed.

(** X5. A reset that returns replaces the road: the network is the straight
    network of [lanes_count] lanes with speed limit 30, and the road's list
    holds only vehicles made by this reset, without repetition: no object
    that existed before is on it, though those objects remain in the store.
    The controlled vehicles are on the road. *)
Theorem reset_starts_from_an_empty_road e e' :
  HighwayEnv._reset e = (Ok tt, e') →
  (∃ lanes_count,
     config e !! "lanes_count" = Some lanes_count ∧
     network (road e') = straight_road_network lanes_count 30) ∧
  NoDup (vehicles (road e')) ∧
  (∀ r, r ∈ vehicles (road e') → store e !! r = None ∧ is_Some (store e' !! r)) ∧
  (∀ r, r ∈ controlled_vehicles e' → r ∈ vehicles (road e')) ∧
  (∀ r v, store e !! r = Some v → store e' !! r = Some v) ∧
  config e' = config e.
Proof.
  unfold HighwayEnv._reset, HighwayEnv._reset_with. intros Hrun.
  apply bind_inv in Hrun as ([] & e1 & Hroad & Hrun).
  apply create_road_inv in Hroad as (lanes_count & show & Hlanes & ->).
  apply create_vehicles_built in Hrun
    as (n & b & groups & ctrl & added & _ & _ & _ & HB & _ & _).
  destruct HB as [? ? ? ? Hnet ? Hstore Hrd Hctl Hsub Hfresh Hdistinct].
  simpl in *. rewrite Hrd. split; [by eauto |]. split; [done |].
  split; [done |]. split.
  - intros r Hr. rewrite Hctl in Hr. by apply (sublist_subseteq _ _ Hsub).
  - split; [| done]. intros r v Hv. by apply (lookup_weaken _ _ _ _ Hv Hstore).
Qed.

(** X6. After a reset of the fast variant a vehicle on the road checks for
    collisions exactly when it is a controlled vehicle, provided the
    constructor of controlled vehicles makes them checking. *)
Theorem fast_reset_leaves_only_controlled_checking e e' :
  (∀ rd p h s, check_collisions (vehicle_class rd p h s) = true) →
  HighwayEnvFast._reset e = (Ok tt, e') →
  (∀ r, r ∈ vehicles (road e') →
     ∃ v, store e' !! r = Some v ∧
          check_collisions v = bool_decide (r ∈ controlled_vehicles e')) ∧
  (∀ r, r ∈ controlled_vehicles e' → r ∈ vehicles (road e')) ∧
  (∀ r v, store e !! r = Some v → store e' !! r = Some v).
Proof.
  intros Hclass.
  unfold HighwayEnvFast._reset, HighwayEnv._reset_with, HighwayEnvFast._create_vehicles.
  intros Hrun.
  apply bind_inv in Hrun as ([] & e1 & Hroad & Hrun).
  apply create_road_inv in Hroad as (lanes_count & show & _ & ->).
  apply bind_inv in Hrun as ([] & e2 & Hbase & Hrun).
  apply bind_inv in Hrun as (rd & e3 & Hrd & Hrun).
  apply gets_inv in Hrd as [-> ->].
  destruct (disable_collision_checks_run (vehicles (road e2)) e2) as (st & Hloop & Hst).
  rewrite Hloop in Hrun. injection Hrun as <-.
  destruct (create_vehicles_checked Hclass _ _ Hbase) as [Hchecked _].
  apply create_vehicles_built in Hbase
    as (n & b & groups & ctrl & added & _ & _ & _ & HB & _ & _).
  destruct HB as [? ? ? ? Hnet ? Hstore Hroad Hctl Hsub Hfresh Hdistinct].
  simpl in *. split; [| split].
  - intros r Hr. rewrite Hst.
    destruct (decide (r ∈ controlled_vehicles e2)) as [Hin | Hout].
    + rewrite decide_False by (intros [_ Hn]; done).
      destruct (Hchecked r Hin) as (v & Hv & Hchk). exists v. split; [done |].
      by rewrite bool_decide_eq_true_2.
    + rewrite decide_True by done.
      rewrite Hroad in Hr. destruct (Hfresh r Hr) as [_ [v Hv]].
      rewrite Hv. eexists. split; [reflexivity |]. simpl.
      by rewrite bool_decide_eq_false_2.
  - intros r Hr. rewrite Hroad, Hctl in *. by apply (sublist_subseteq _ _ Hsub).
  - intros r v Hv. rewrite Hst.
    rewrite decide_False; [by apply (lookup_weaken _ _ _ _ Hv Hstore) |].
    intros [Hr _]. rewrite Hroad in Hr. destruct (Hfresh r Hr) as [Hnone _]. congruence.
Qed.

End builders_more.

(** ** Failures of the reset *)

Section builder_errors.
Context `{Framework}.
Import HighwayEnv.

(** X7. With [vehicles_density] 0 and at least one vehicle of traffic in the
    first group, the builder raises [ZeroDivisionError] at
    [1 / vehicles_density], after it has placed the first controlled
    vehicle: the environment is left with that vehicle on the road and in
    the controlled list, and with the generator advanced. *)
Theorem density_zero_leaves_a_half_built_scene e cls others rest created density :
  Buildable e cls (others :: rest) created →
  (0 < others)%Z →
  getitem (config e) "vehicles_density" ≫= as_num = Ok density →
  density == 0 →
  _create_vehicles e = (Raise ZeroDivisionError, first_ego_placed e created).
Proof.
  intros [(path & Hpath & Hcls) (n & b & Hn & Hb & Hsplit)
            (lane & spacing & Hlane & Hspacing & Hcreated)] Hothers Hdensity Hzero.
  unfold _create_vehicles.
  rewrite (bind_ok _ _ _ _ _ (config_item_ok _ _ _ Hpath)).
  erewrite bind_ok by (unfold lift; rewrite Hcls; reflexivity).
  rewrite (bind_ok _ _ _ _ _ Hn). rewrite (bind_ok _ _ _ _ _ Hb).
  erewrite bind_ok by (unfold lift; rewrite Hsplit; reflexivity).
  erewrite bind_ok by reflexivity.
  cbn [create_groups]. erewrite bind_raise; [reflexivity |].
  unfold create_group.
  erewrite bind_ok by reflexivity.
  erewrite bind_ok by (by apply config_item_ok).
  erewrite bind_ok by (by apply config_num_ok).
  erewrite bind_ok by reflexivity.
  erewrite bind_ok by reflexivity.
  erewrite bind_ok by (unfold lift; simpl; rewrite Hcreated; reflexivity).
  erewrite bind_ok by reflexivity.
  erewrite bind_ok by reflexivity.
  erewrite bind_ok by reflexivity.
  erewrite bind_ok by reflexivity.
  destruct (Z.to_nat others) as [| k] eqn:Ek; [lia |].
  cbn [create_others]. erewrite bind_raise; [reflexivity |].
  unfold create_other.
  erewrite bind_ok by reflexivity.
  erewrite bind_ok by (by apply config_num_ok).
  erewrite bind_raise; [reflexivity |].
  unfold lift. by rewrite truediv_zero.
Qed.

(** X8. The keys a reset reads by subscript, in the order it reads them: a
    missing [lanes_count] or, next, [show_trajectories] raises [KeyError]
    before anything changes; a missing [other_vehicles_type] raises
    [KeyError] after the road has been replaced by an empty one, and before
    the builder has changed anything. *)
Theorem reset_key_errors e :
  (config e !! "lanes_count" = None →
   _reset e = (Raise (KeyError "lanes_count"), e)) ∧
  (∀ lanes_count, config e !! "lanes_count" = Some lanes_count →
     config e !! "show_trajectories" = None →
     _reset e = (Raise (KeyError "show_trajectories"), e)) ∧
  (∀ lanes_count show, config e !! "lanes_count" = Some lanes_count →
     config e !! "show_trajectories" = Some show →
     config e !! "other_vehicles_type" = None →
     _reset e
     = (Raise (KeyError "other_vehicles_type"),
        set_road (λ _, mkRoad (straight_road_network lanes_count 30) [] show) e)) ∧
  (config e !! "other_vehicles_type" = None →
   _create_vehicles e = (Raise (KeyError "other_vehicles_type"), e)).
Proof.
  unfold _reset, _reset_with, _create_road.
  split; [| split; [| split]].
  - intros Hnone. erewrite bind_raise; [reflexivity |].
    erewrite bind_raise; [reflexivity |]. by apply config_item_missing.
  - intros lanes Hlanes Hnone. erewrite bind_raise; [reflexivity |].
    rewrite (bind_ok _ _ _ _ _ (config_item_ok _ _ _ Hlanes)).
    erewrite bind_raise; [reflexivity |]. by apply config_item_missing.
  - intros lanes show Hlanes Hshow Hnone.
    erewrite bind_ok; [| rewrite (bind_ok _ _ _ _ _ (config_item_ok _ _ _ Hlanes));
                         rewrite (bind_ok _ _ _ _ _ (config_item_ok _ _ _ Hshow));
                         reflexivity].
    unfold _create_vehicles. erewrite bind_raise; [reflexivity |].
    by apply config_item_missing.
  - intros Hnone. unfold _create_vehicles. erewrite bind_raise; [reflexivity |].
    by apply config_item_missing.
Qed.

End builder_errors.

(** ** The reward under the default configuration *)

Section default_rewards.
Context `{Framework}.
Import HighwayEnv.

(** Reads a key of the display of the default configuration, by evaluation
    under the sample framework. *)
Ltac default_key :=
  match goal with
  | |- default_config !! ?key = Some _ =>
      let Hin := fresh "Hin" in
      assert (key ∈ highway_keys) as Hin
        by (apply (bool_decide_unpack _); vm_compute; exact I);
      rewrite <- (proj2 (default_config_own _ (Sample.framework 0) key Hin));
      vm_compute; reflexivity
  end.

Lemma default_readable e v a0 :
  config e = default_config → self_vehicle e = (Ok v, e) →
  first_item (action e) = Ok a0 →
  Readable e v (-40, 40) (0, 30) (0, 30) a0.
Proof.
  intros Hcfg Hv Ha.
  constructor; try done; try q_neq;
    unfold config_range;
    (erewrite bind_ok by (apply config_item_ok; rewrite Hcfg; default_key));
    reflexivity.
Qed.

Lemma default_weights_of e :
  config e = default_config → weights_of (config e) default_weights.
Proof.
  intros Hcfg name Hname. rewrite Hcfg. unfold term_names in Hname. unfold dict_get.
  repeat (apply elem_of_cons in Hname as [-> | Hname];
          [match goal with
           | |- as_num (default _ (default_config !! ?key)) = _ =>
               assert (∃ x, default_config !! key = Some x ∧ as_num x = Ok (default_weights key))
                 as (x & -> & Hx) by (eexists; split; [default_key | reflexivity]);
               exact Hx
           end |]).
  by apply elem_of_nil in Hname.
Qed.

Lemma default_normalisation e :
  config e = default_config → Normalisation (config e) (Some (-50, 0.4 + 0.1)).
Proof.
  intros Hcfg. rewrite Hcfg.
  assert (default_config !! "normalize_reward" = Some (VBool true)) as Hn by default_key.
  assert (default_config !! "collision_reward" = Some (VNum (-50))) as Hc by default_key.
  assert (default_config !! "high_speed_reward" = Some (VNum 0.4)) as Hh by default_key.
  assert (default_config !! "right_lane_reward" = Some (VNum 0.1)) as Hr by default_key.
  apply (normalise_on _ (VBool true) (-50) 0.4 0.1);
    try done; try q_neq; unfold getitem; by rewrite ?Hc, ?Hh, ?Hr.
Qed.

(** X10. Under the default configuration the weights sum to 50 while the
    normalisation maps [-50, 0.5] onto [0, 1]: the reward lies in
    [0, 200/101], and for an ego vehicle that is on the road and has not
    crashed it is at least 140/101, above 1. *)
Theorem default_reward_exceeds_one e v a0 a :
  config e = default_config → self_vehicle e = (Ok v, e) →
  first_item (action e) = Ok a0 → ¬ speed v == 0 →
  ∃ reward e',
    _reward a e = (Ok reward, e') ∧
    (0 <= reward ∧ reward <= 200 # 101) ∧
    (crashed v = false → on_road v = true → 140 # 101 <= reward).
Proof.
  intros Hcfg Hv Ha Hs.
  destruct (reward_run e v (-40, 40) (0, 30) (0, 30) a0 default_weights
              (Some (-50, 0.4 + 0.1)) a
              (default_readable e v a0 Hcfg Hv Ha) Hs
              (default_weights_of e Hcfg) (default_normalisation e Hcfg))
    as (reward & Hrun & Hval).
  exists reward, (printed a0 e). split; [exact Hrun |].
  pose proof (combined_bounds default_weights v (front_gap e v) (rear_gap e v)
                (-40, 40) (0, 30) (0, 30) a0) as [Hlo Hhi].
  set (c := combined default_weights
              (breakdown v (front_gap e v) (rear_gap e v) (-40, 40) (0, 30) (0, 30) a0))
    in *.
  assert (reward == (c + 50) / 50.5) as ->.
  { rewrite Hval. unfold normalised, lmap_value. simpl. field. }
  assert (lower default_weights == -50) as El by reflexivity.
  assert (upper default_weights == 50) as Eu by reflexivity.
  rewrite El in Hlo. rewrite Eu in Hhi.
  split.
  - split.
    + apply Qle_shift_div_l; [reflexivity | lra].
    + apply Qle_shift_div_r; [reflexivity |]. 
      assert ((200 # 101) * 50.5 == 100) as -> by reflexivity. lra.
  - intros Hc Hroad. apply Qle_shift_div_l; [reflexivity |].
    assert ((140 # 101) * 50.5 == 70) as -> by reflexivity.
    assert (20 <= c); [| lra].
    subst c. unfold combined, default_weights. simpl. rewrite Hc, Hroad. simpl.
    pose proof (clip_bounds (lmap_value (speed v) (-40, 40) (0, 1))) as [? ?].
    pose proof (clip_bounds (front_half (front_gap e v) (0, 30)
                             + rear_half (rear_gap e v) (0, 30))) as [? ?].
    lra.
Qed.

End default_rewards.

(** ** Keys that are missing from the configuration, method by method *)

Lemma not_ok_fails {A} (m : M A) e :
  (∀ a e', m e ≠ (Ok a, e')) → fails m e.
Proof.
  intros Hno. destruct (m e) as [[a | exn] e'] eqn:Hrun.
  - by destruct (Hno a e').
  - by exists exn, e'.
Qed.

Lemma config_item_read key e x e1 :
  config_item key e = (Ok x, e1) → config e !! key = Some x ∧ e1 = e.
Proof.
  intros Hrun. split; [| by apply config_item_inv in Hrun].
  unfold config_item in Hrun. apply bind_inv in Hrun as (cfg & e0 & Hg & Hl).
  apply gets_inv in Hg as [-> ->]. apply lift_inv in Hl as [Hl _].
  unfold getitem in Hl. by destruct (config e !! key); simplify_eq.
Qed.

Lemma config_num_read key e q e1 :
  config_num key e = (Ok q, e1) → is_Some (config e !! key) ∧ e1 = e.
Proof.
  unfold config_num. intros Hrun. apply bind_inv in Hrun as (x & e0 & Hc & Hl).
  apply config_item_read in Hc as [Hx ->]. apply lift_inv in Hl as [_ ->]. eauto.
Qed.

Lemma config_int_read key e n e1 :
  config_int key e = (Ok n, e1) → is_Some (config e !! key) ∧ e1 = e.
Proof.
  unfold config_int. intros Hrun. apply bind_inv in Hrun as (x & e0 & Hc & Hl).
  apply config_item_read in Hc as [Hx ->]. apply lift_inv in Hl as [_ ->]. eauto.
Qed.

Lemma config_range_read key e r e1 :
  config_range key e = (Ok r, e1) → is_Some (config e !! key) ∧ e1 = e.
Proof.
  unfold config_range. intros Hrun. apply bind_inv in Hrun as (x & e0 & Hc & Hl).
  apply config_item_read in Hc as [Hx ->]. apply lift_inv in Hl as [_ ->]. eauto.
Qed.

Lemma self_vehicle_read e v e1 : self_vehicle e = (Ok v, e1) → e1 = e.
Proof.
  intros Hrun. pose proof (quiet_self_vehicle e) as Hq. by rewrite Hrun in Hq.
Qed.

(** Inverts a run that returned and keeps, for every subscript of the
    configuration, the fact that the key was there. *)
Ltac reads_inv H :=
  repeat first
    [ apply bind_inv in H as (? & ? & ?Hstep & H)
    | match goal with
      | Hs : gets _ _ = (Ok _, _) |- _ => apply gets_inv in Hs as [-> ->]
      | Hs : self_action _ = (Ok _, _) |- _ => apply gets_inv in Hs as [-> ->]
      | Hs : lift _ _ = (Ok _, _) |- _ => apply lift_inv in Hs as [? ->]
      | Hs : modify _ _ = (Ok _, _) |- _ => apply modify_inv in Hs as ->
      | Hs : print _ _ = (Ok _, _) |- _ => apply modify_inv in Hs as ->
      | Hs : self_vehicle _ = (Ok _, _) |- _ => apply self_vehicle_read in Hs as ->
      | Hs : config_item _ _ = (Ok _, _) |- _ => apply config_item_read in Hs as [? ->]
      | Hs : config_num _ _ = (Ok _, _) |- _ => apply config_num_read in Hs as [? ->]
      | Hs : config_int _ _ = (Ok _, _) |- _ => apply config_int_read in Hs as [? ->]
      | Hs : config_range _ _ = (Ok _, _) |- _ => apply config_range_read in Hs as [? ->]
      | Hs : new_vehicle _ _ = (Ok _, _) |- _ => apply new_vehicle_inv in Hs as [? ->]
      end ].

Section reads.
Context `{Framework}.
Import HighwayEnv.

Lemma rewards_reads a e rewards e' :
  _rewards a e = (Ok rewards, e') →
  (∀ key, key ∈ ["reward_speed_range"; "front_distance_range"; "rear_distance_range"] →
     is_Some (config e !! key)) ∧
  config e' = config e.
Proof.
  unfold _rewards. intros Hrun. reads_inv Hrun.
  injection Hrun as _ <-. split; [| done].
  intros key Hkey.
  repeat (apply elem_of_cons in Hkey as [-> | Hkey]; [done |]).
  by apply elem_of_nil in Hkey.
Qed.

Lemma reward_reads a e reward e' :
  _reward a e = (Ok reward, e') →
  (∀ key, key ∈ evaluator_keys → is_Some (config e !! key)) ∧
  (∀ normalize_reward,
     config e !! "normalize_reward" = Some normalize_reward →
     truthy normalize_reward = true →
     ∀ key, key ∈ normalisation_keys → is_Some (config e !! key)).
Proof.
  unfold _reward. intros Hrun.
  apply bind_inv in Hrun as (rewards & e1 & Hrewards & Hrun).
  apply rewards_reads in Hrewards as [Hthree Hcfg].
  apply bind_inv in Hrun as (cfg & e2 & Hg & Hrun). apply gets_inv in Hg as [-> ->].
  apply bind_inv in Hrun as (sum & e2 & Hsum & Hrun). apply lift_inv in Hsum as [_ ->].
  apply bind_inv in Hrun as (nr & e2 & Hnr & Hrun).
  apply config_item_read in Hnr as [Hnr ->]. rewrite Hcfg in Hnr.
  split.
  - intros key Hkey. unfold evaluator_keys in Hkey.
    repeat (apply elem_of_cons in Hkey as [-> | Hkey];
            [first [ by eauto
                   | apply Hthree;
                     repeat first [apply list_elem_of_here | apply list_elem_of_further] ]
            |]).
    by apply elem_of_nil in Hkey.
  - intros normalize_reward Hn Htrue key Hkey.
    rewrite Hnr in Hn. injection Hn as <-. rewrite Htrue in Hrun.
    reads_inv Hrun. rewrite Hcfg in *.
    unfold normalisation_keys in Hkey.
    repeat (apply elem_of_cons in Hkey as [-> | Hkey]; [done |]).
    by apply elem_of_nil in Hkey.
Qed.

End reads.

Lemma sublist_same_length {A} (l k : list A) :
  l `sublist_of` k → length l = length k → l = k.
Proof.
  induction 1 as [| x l k _ IH | x l k Hsub _]; simpl; intros Hlen.
  - done.
  - f_equal. apply IH. lia.
  - apply sublist_length in Hsub. lia.
Qed.

Section builder_reads.
Context `{Framework}.
Import HighwayEnv.

Lemma create_group_reads cls others e e' :
  create_group cls others e = (Ok tt, e') →
  (∀ key, key ∈ ego_keys → is_Some (config e !! key)) ∧
  (Z.to_nat others ≠ 0%nat → is_Some (config e !! "vehicles_density")).
Proof.
  unfold create_group. intros Hrun. reads_inv Hrun. split.
  - intros key Hkey. unfold ego_keys in Hkey.
    repeat (apply elem_of_cons in Hkey as [-> | Hkey]; [by eauto |]).
    by apply elem_of_nil in Hkey.
  - intros Hothers. destruct (Z.to_nat others) as [| n]; [done |].
    cbn [create_others] in Hrun.
    apply bind_inv in Hrun as ([] & e1 & Hone & _).
    unfold create_other in Hone. reads_inv Hone. done.
Qed.

Lemma create_groups_reads cls groups e e' :
  create_groups cls groups e = (Ok tt, e') →
  (groups ≠ [] → ∀ key, key ∈ ego_keys → is_Some (config e !! key)) ∧
  (traffic_of groups ≠ 0%nat → is_Some (config e !! "vehicles_density")).
Proof.
  revert e. induction groups as [| others groups IH]; intros e Hrun.
  - split; [done |]. simpl. done.
  - cbn [create_groups] in Hrun.
    apply bind_inv in Hrun as ([] & e1 & Hone & Hrest).
    pose proof (create_group_reads _ _ _ _ Hone) as [Hego Hdensity].
    apply create_group_built in Hone as (r & added & HB & _).
    apply IH in Hrest as [_ Hrest]. rewrite (built_config _ _ _ _ HB) in Hrest.
    split; [done |]. simpl. intros Htraffic.
    destruct (Z.to_nat others) as [| n]; [by apply Hrest | by apply Hdensity].
Qed.

Lemma reset_reads e e' :
  _reset e = (Ok tt, e') →
  (∀ key, key ∈ reset_keys → is_Some (config e !! key)) ∧
  (controlled_vehicles e' ≠ [] → ∀ key, key ∈ ego_keys → is_Some (config e !! key)) ∧
  (vehicles (road e') ≠ controlled_vehicles e' →
   is_Some (config e !! "vehicles_density")).
Proof.
  unfold _reset, _reset_with. intros Hrun.
  apply bind_inv in Hrun as ([] & e1 & Hroad & Hrun).
  unfold _create_road in Hroad. reads_inv Hroad.
  unfold _create_vehicles in Hrun. reads_inv Hrun.
  pose proof (create_groups_built _ _ _ _ Hrun) as (ctrl & added & HB & Hctrl & Hadded).
  apply create_groups_reads in Hrun as [Hego Hdensity].
  pose proof (built_controlled _ _ _ _ HB) as Hc.
  pose proof (built_road _ _ _ _ HB) as Hr.
  simpl in *.
  split; [| split].
  - intros key Hkey. unfold reset_keys in Hkey.
    repeat (apply elem_of_cons in Hkey as [-> | Hkey]; [by eauto |]).
    by apply elem_of_nil in Hkey.
  - intros Hsome. apply Hego. intros ->. apply Hsome. rewrite Hc.
    by destruct ctrl.
  - intros Hdiff. apply Hdensity. intros Hzero. apply Hdiff.
    rewrite Hc, Hr. symmetry.
    apply sublist_same_length; [apply (built_sublist _ _ _ _ HB) | lia].
Qed.

End builder_reads.

Section key_errors.
Context `{Framework}.
Import HighwayEnv.

(** The subscripts of the breakdown, in the order they are made. *)
Lemma rewards_key_errors a e v :
  self_vehicle e = (Ok v, e) →
  (config e !! "reward_speed_range" = None →
   _reward a e = (Raise (KeyError "reward_speed_range"), e)) ∧
  (∀ sr, config_range "reward_speed_range" e = (Ok sr, e) → proper sr →
     (config e !! "front_distance_range" = None →
      _reward a e = (Raise (KeyError "front_distance_range"), e)) ∧
     (∀ fr, config_range "front_distance_range" e = (Ok fr, e) → proper fr →
        config e !! "rear_distance_range" = None →
        _reward a e = (Raise (KeyError "rear_distance_range"), e))).
Proof.
  intros Hv. unfold _reward, _rewards. split.
  - intros Hnone. erewrite bind_raise; [reflexivity |].
    rewrite (bind_ok _ _ _ _ _ Hv). erewrite bind_ok by reflexivity.
    erewrite bind_raise; [reflexivity |].
    unfold config_range. erewrite bind_raise; [reflexivity |].
    by apply config_item_missing.
  - intros sr Hsr Psr. split.
    + intros Hnone. erewrite bind_raise; [reflexivity |].
      rewrite (bind_ok _ _ _ _ _ Hv). erewrite bind_ok by reflexivity.
      rewrite (bind_ok _ _ _ _ _ Hsr).
      erewrite bind_ok by (unfold lift; rewrite lmap_ok by done; reflexivity).
      erewrite bind_ok by reflexivity.
      erewrite bind_raise; [reflexivity |].
      unfold config_range. erewrite bind_raise; [reflexivity |].
      by apply config_item_missing.
    + intros fr Hfr Pfr Hnone. erewrite bind_raise; [reflexivity |].
      rewrite (bind_ok _ _ _ _ _ Hv). erewrite bind_ok by reflexivity.
      rewrite (bind_ok _ _ _ _ _ Hsr).
      erewrite bind_ok by (unfold lift; rewrite lmap_ok by done; reflexivity).
      erewrite bind_ok by reflexivity.
      rewrite (bind_ok _ _ _ _ _ Hfr).
      erewrite bind_ok by (unfold lift; rewrite lmap_ok by done; reflexivity).
      erewrite bind_raise; [reflexivity |].
      unfold config_range. erewrite bind_raise; [reflexivity |].
      by apply config_item_missing.
Qed.

(** The subscripts of the normalisation, in the order they are made. *)
Lemma normalisation_key_errors a e rewards e' reward :
  _rewards a e = (Ok rewards, e') →
  weighted_sum (config e) 0 rewards = Ok reward →
  (config e !! "normalize_reward" = None →
   _reward a e = (Raise (KeyError "normalize_reward"), e')) ∧
  (∀ normalize_reward,
     config e !! "normalize_reward" = Some normalize_reward →
     truthy normalize_reward = true →
     (config e !! "collision_reward" = None →
      _reward a e = (Raise (KeyError "collision_reward"), e')) ∧
     (∀ collision_reward,
        getitem (config e) "collision_reward" ≫= as_num = Ok collision_reward →
        (config e !! "high_speed_reward" = None →
         _reward a e = (Raise (KeyError "high_speed_reward"), e')) ∧
        (∀ high_speed_reward,
           getitem (config e) "high_speed_reward" ≫= as_num = Ok high_speed_reward →
           config e !! "right_lane_reward" = None →
           _reward a e = (Raise (KeyError "right_lane_reward"), e')))).
Proof.
  intros Hrun Hsum.
  pose proof (rewards_reads _ _ _ _ Hrun) as [_ Hcfg].
  assert (∀ key, config e !! key = None →
            config_num key e' = (Raise (KeyError key), e')) as Hmissing.
  { intros key Hnone. unfold config_num. erewrite bind_raise; [reflexivity |].
    apply config_item_missing. by rewrite Hcfg. }
  unfold _reward. rewrite (bind_ok _ _ _ _ _ Hrun).
  erewrite bind_ok by reflexivity. rewrite Hcfg.
  erewrite bind_ok by (unfold lift; rewrite Hsum; reflexivity).
  split.
  - intros Hnone. erewrite bind_raise; [reflexivity |].
    apply config_item_missing. by rewrite Hcfg.
  - intros nr Hnr Htrue.
    erewrite bind_ok by (apply config_item_ok; rewrite Hcfg; exact Hnr).
    rewrite Htrue. split.
    + intros Hnone. erewrite bind_raise; [reflexivity |]. by apply Hmissing.
    + intros lo Hlo.
      erewrite bind_ok by (apply config_num_ok; rewrite Hcfg; exact Hlo).
      split.
      * intros Hnone. erewrite bind_raise; [reflexivity |]. by apply Hmissing.
      * intros hs Hhs Hnone.
        erewrite bind_ok by (apply config_num_ok; rewrite Hcfg; exact Hhs).
        erewrite bind_raise; [reflexivity |]. by apply Hmissing.
Qed.

(** The subscripts of [_create_road]. *)
Lemma create_road_key_errors e :
  (config e !! "lanes_count" = None →
   _reset e = (Raise (KeyError "lanes_count"), e)) ∧
  (∀ lanes_count, config e !! "lanes_count" = Some lanes_count →
     config e !! "show_trajectories" = None →
     _reset e = (Raise (KeyError "show_trajectories"), e)).
Proof.
  unfold _reset, _reset_with, _create_road. split.
  - intros Hnone. erewrite bind_raise; [reflexivity |].
    erewrite bind_raise; [reflexivity |]. by apply config_item_missing.
  - intros lanes Hlanes Hnone. erewrite bind_raise; [reflexivity |].
    rewrite (bind_ok _ _ _ _ _ (config_item_ok _ _ _ Hlanes)).
    erewrite bind_raise; [reflexivity |]. by apply config_item_missing.
Qed.

(** The subscripts of [_create_vehicles], in the order they are made. *)
Lemma create_vehicles_key_errors e :
  (config e !! "other_vehicles_type" = None →
   _create_vehicles e = (Raise (KeyError "other_vehicles_type"), e)) ∧
  (∀ path cls,
     config e !! "other_vehicles_type" = Some path → class_from_path path = Ok cls →
     (config e !! "vehicles_count" = None →
      _create_vehicles e = (Raise (KeyError "vehicles_count"), e)) ∧
     (∀ vehicles_count,
        config_int "vehicles_count" e = (Ok vehicles_count, e) →
        (config e !! "controlled_vehicles" = None →
         _create_vehicles e = (Raise (KeyError "controlled_vehicles"), e)) ∧
        (∀ controlled others rest,
           config_int "controlled_vehicles" e = (Ok controlled, e) →
           utils.near_split vehicles_count controlled = Ok (others :: rest) →
           (config e !! "initial_lane_id" = None →
            _create_vehicles e
            = (Raise (KeyError "initial_lane_id"),
               set_controlled_vehicles (λ _, []) e)) ∧
           (∀ initial_lane_id,
              config e !! "initial_lane_id" = Some initial_lane_id →
              (config e !! "ego_spacing" = None →
               _create_vehicles e
               = (Raise (KeyError "ego_spacing"),
                  set_controlled_vehicles (λ _, []) e)) ∧
              (∀ ego_spacing created,
                 getitem (config e) "ego_spacing" ≫= as_num = Ok ego_spacing →
                 create_random (road e) (store e) (np_random e) 25
                   initial_lane_id ego_spacing = Ok created →
                 (0 < others)%Z →
                 config e !! "vehicles_density" = None →
                 _create_vehicles e
                 = (Raise (KeyError "vehicles_density"),
                    first_ego_placed e created)))))).
Proof.
  assert (∀ key e0, config e0 !! key = None →
            config_int key e0 = (Raise (KeyError key), e0)) as Hint.
  { intros key e0 Hnone. unfold config_int. erewrite bind_raise; [reflexivity |].
    by apply config_item_missing. }
  assert (∀ key e0, config e0 !! key = None →
            config_num key e0 = (Raise (KeyError key), e0)) as Hnum.
  { intros key e0 Hnone. unfold config_num. erewrite bind_raise; [reflexivity |].
    by apply config_item_missing. }
  unfold _create_vehicles. split.
  - intros Hnone. erewrite bind_raise; [reflexivity |]. by apply config_item_missing.
  - intros path cls Hpath Hcls.
    rewrite (bind_ok _ _ _ _ _ (config_item_ok _ _ _ Hpath)).
    erewrite bind_ok by (unfold lift; rewrite Hcls; reflexivity).
    split; [intros Hnone; erewrite bind_raise; [reflexivity |]; by apply Hint |].
    intros n Hn. rewrite (bind_ok _ _ _ _ _ Hn).
    split; [intros Hnone; erewrite bind_raise; [reflexivity |]; by apply Hint |].
    intros b others rest Hb Hsplit. rewrite (bind_ok _ _ _ _ _ Hb).
    erewrite bind_ok by (unfold lift; rewrite Hsplit; reflexivity).
    erewrite bind_ok by reflexivity.
    cbn [create_groups]. unfold create_group. split.
    + intros Hnone. erewrite bind_raise; [reflexivity |].
      erewrite bind_ok by reflexivity.
      erewrite bind_raise; [reflexivity |]. by apply config_item_missing.
    + intros lane Hlane. split.
      * intros Hnone. erewrite bind_raise; [reflexivity |].
        erewrite bind_ok by reflexivity.
        erewrite bind_ok by (by apply config_item_ok).
        erewrite bind_raise; [reflexivity |]. by apply Hnum.
      * intros spacing created Hspacing Hcreated Hothers Hnone.
        erewrite bind_raise; [reflexivity |].
        erewrite bind_ok by reflexivity.
        erewrite bind_ok by (by apply config_item_ok).
        erewrite bind_ok by (by apply config_num_ok).
        erewrite bind_ok by reflexivity.
        erewrite bind_ok by reflexivity.
        erewrite bind_ok by (unfold lift; simpl; rewrite Hcreated; reflexivity).
        erewrite bind_ok by reflexivity.
        erewrite bind_ok by reflexivity.
        erewrite bind_ok by reflexivity.
        erewrite bind_ok by reflexivity.
        destruct (Z.to_nat others) as [| k] eqn:Ek; [lia |].
        cbn [create_others]. erewrite bind_raise; [reflexivity |].
        unfold create_other.
        erewrite bind_ok by reflexivity.
        erewrite bind_raise; [reflexivity |]. by apply Hnum.
Qed.

End key_errors.

Section missing_keys_all.
Context `{Framework}.
Import HighwayEnv.

(** C8, as amended. A missing key is handled according to how the code reads
    it.  The weight of the speed, safe-distance, on-road or torque term is
    read with [config.get(name, 0)]: without the key nothing is raised and
    the reward is the one computed with the key set to 0.  Every other key
    is read by subscript.  Without a key that the evaluator reads on every
    call, or reads for the normalisation when [normalize_reward] is set,
    [_reward] does not return; without a key that a reset reads whatever it
    builds, [_reset] does not return; without [initial_lane_id] or
    [ego_spacing] it returns only if it made no controlled vehicle, and
    without [vehicles_density] only if it made no traffic.  The exception is
    the [KeyError] of the key when the statements before the subscript
    succeed, key by key in the order of the reads, and the state is the one
    reached at the subscript.  The default configuration defines every key
    of the evaluator and every key of the builder that its display lists. *)
Theorem missing_configuration_keys e a :
  (∀ name, name ∈ optional_weights → config e !! name = None →
     _reward a (with_config (<[name := VNum 0]> (config e)) e)
     = ((_reward a e).1,
        with_config (<[name := VNum 0]> (config e)) (_reward a e).2)) ∧
  (∀ key, key ∈ evaluator_keys → config e !! key = None → fails (_reward a) e) ∧
  (∀ key normalize_reward,
     key ∈ normalisation_keys → config e !! key = None →
     config e !! "normalize_reward" = Some normalize_reward →
     truthy normalize_reward = true → fails (_reward a) e) ∧
  (∀ key, key ∈ reset_keys → config e !! key = None → fails _reset e) ∧
  (∀ key e', key ∈ ego_keys → config e !! key = None →
     _reset e = (Ok tt, e') → controlled_vehicles e' = []) ∧
  (∀ e', config e !! "vehicles_density" = None →
     _reset e = (Ok tt, e') → vehicles (road e') = controlled_vehicles e') ∧
  (∀ v, self_vehicle e = (Ok v, e) →
     (config e !! "reward_speed_range" = None →
      _reward a e = (Raise (KeyError "reward_speed_range"), e)) ∧
     (∀ sr, config_range "reward_speed_range" e = (Ok sr, e) → proper sr →
        (config e !! "front_distance_range" = None →
         _reward a e = (Raise (KeyError "front_distance_range"), e)) ∧
        (∀ fr, config_range "front_distance_range" e = (Ok fr, e) → proper fr →
           config e !! "rear_distance_range" = None →
           _reward a e = (Raise (KeyError "rear_distance_range"), e)))) ∧
  (∀ rewards e' reward,
     _rewards a e = (Ok rewards, e') →
     weighted_sum (config e) 0 rewards = Ok reward →
     (config e !! "normalize_reward" = None →
      _reward a e = (Raise (KeyError "normalize_reward"), e')) ∧
     (∀ normalize_reward,
        config e !! "normalize_reward" = Some normalize_reward →
        truthy normalize_reward = true →
        (config e !! "collision_reward" = None →
         _reward a e = (Raise (KeyError "collision_reward"), e')) ∧
        (∀ collision_reward,
           getitem (config e) "collision_reward" ≫= as_num = Ok collision_reward →
           (config e !! "high_speed_reward" = None →
            _reward a e = (Raise (KeyError "high_speed_reward"), e')) ∧
           (∀ high_speed_reward,
              getitem (config e) "high_speed_reward" ≫= as_num
              = Ok high_speed_reward →
              config e !! "right_lane_reward" = None →
              _reward a e = (Raise (KeyError "right_lane_reward"), e'))))) ∧
  ((config e !! "lanes_count" = None →
    _reset e = (Raise (KeyError "lanes_count"), e)) ∧
   (∀ lanes_count, config e !! "lanes_count" = Some lanes_count →
      config e !! "show_trajectories" = None →
      _reset e = (Raise (KeyError "show_trajectories"), e))) ∧
  ((config e !! "other_vehicles_type" = None →
    _create_vehicles e = (Raise (KeyError "other_vehicles_type"), e)) ∧
   (∀ path cls,
      config e !! "other_vehicles_type" = Some path → class_from_path path = Ok cls →
      (config e !! "vehicles_count" = None →
       _create_vehicles e = (Raise (KeyError "vehicles_count"), e)) ∧
      (∀ vehicles_count,
         config_int "vehicles_count" e = (Ok vehicles_count, e) →
         (config e !! "controlled_vehicles" = None →
          _create_vehicles e = (Raise (KeyError "controlled_vehicles"), e)) ∧
         (∀ controlled others rest,
            config_int "controlled_vehicles" e = (Ok controlled, e) →
            utils.near_split vehicles_count controlled = Ok (others :: rest) →
            (config e !! "initial_lane_id" = None →
             _create_vehicles e
             = (Raise (KeyError "initial_lane_id"),
                set_controlled_vehicles (λ _, []) e)) ∧
            (∀ initial_lane_id,
               config e !! "initial_lane_id" = Some initial_lane_id →
               (config e !! "ego_spacing" = None →
                _create_vehicles e
                = (Raise (KeyError "ego_spacing"),
                   set_controlled_vehicles (λ _, []) e)) ∧
               (∀ ego_spacing created,
                  getitem (config e) "ego_spacing" ≫= as_num = Ok ego_spacing →
                  create_random (road e) (store e) (np_random e) 25
                    initial_lane_id ego_spacing = Ok created →
                  (0 < others)%Z →
                  config e !! "vehicles_density" = None →
                  _create_vehicles e
                  = (Raise (KeyError "vehicles_density"),
                     first_ego_placed e created))))))) ∧
  (∀ key, key ∈ subscript_keys ++ term_names ++ builder_display_keys →
     is_Some (default_config !! key)).
Proof.
  split; [| split; [| split; [| split; [| split; [| split; [| split;
    [| split; [| split; [| split]]]]]]]]].
  - intros name Hname Hnone.
    apply framed_reward. apply agree_insert_zero; [| done].
    unfold optional_weights in Hname. unfold subscript_keys. intros Hsub.
    repeat (apply elem_of_cons in Hname as [-> | Hname];
            [repeat (apply elem_of_cons in Hsub as [[=] | Hsub]);
             by apply elem_of_nil in Hsub |]).
    by apply elem_of_nil in Hname.
  - intros key Hkey Hnone. apply not_ok_fails. intros reward e' Hrun.
    apply reward_reads in Hrun as [Hread _].
    apply Hread in Hkey as [x Hx]. congruence.
  - intros key nr Hkey Hnone Hnr Htrue. apply not_ok_fails. intros reward e' Hrun.
    apply reward_reads in Hrun as [_ Hread].
    apply (Hread nr Hnr Htrue) in Hkey as [x Hx]. congruence.
  - intros key Hkey Hnone. apply not_ok_fails. intros [] e' Hrun.
    apply reset_reads in Hrun as [Hread _].
    apply Hread in Hkey as [x Hx]. congruence.
  - intros key e' Hkey Hnone Hrun.
    apply reset_reads in Hrun as (_ & Hread & _).
    destruct (controlled_vehicles e') as [| r l]; [done |].
    destruct (Hread ltac:(done) key Hkey) as [x Hx]. congruence.
  - intros e' Hnone Hrun.
    apply reset_reads in Hrun as (_ & _ & Hread).
    destruct (decide (vehicles (road e') = controlled_vehicles e')) as [| Hdiff];
      [done |].
    destruct (Hread Hdiff) as [x Hx]. congruence.
  - intros v Hv. by apply (rewards_key_errors a e v).
  - intros rewards e' reward Hrun Hsum. by eapply normalisation_key_errors.
  - apply create_road_key_errors.
  - apply create_vehicles_key_errors.
  - intros key Hkey.
    unfold subscript_keys, term_names, builder_display_keys in Hkey. simpl in Hkey.
    repeat (apply elem_of_cons in Hkey as [-> | Hkey];
            [apply (default_config_own _ H);
             apply (bool_decide_unpack _); vm_compute; exact I |]).
    by apply elem_of_nil in Hkey.
Qed.

End missing_keys_all.

(** ** Concrete instances *)

Ltac default_weights_hyp :=
  let name := fresh "name" in
  let Hname := fresh "Hname" in
  intros name Hname; unfold term_names in Hname;
  repeat (apply elem_of_cons in Hname as [-> | Hname]; [vm_compute; reflexivity |]);
  by apply elem_of_nil in Hname.

(** The builder on a blank environment with the fast variant's defaults:
    one controlled vehicle and twenty others. *)
Lemma create_vehicles_counts_witness :
  ∃ vehicles_count controlled groups,
    utils.near_split vehicles_count controlled = Ok groups ∧
    length (controlled_vehicles Sample.traffic) = length groups ∧
    length (vehicles (road Sample.traffic))
    = (0 + length groups + traffic_of groups)%nat ∧
    NoDup (controlled_vehicles Sample.traffic).
Proof.
  destruct (@create_vehicles_counts (Sample.framework 100)
              (Sample.blank (@HighwayEnvFast.default_config (Sample.framework 100)))
              Sample.traffic)
    as (vehicles_count & controlled & groups & _ & _ & Hsplit & Hctrl & Hroad & Hdup & _).
  - apply returned_unit. vm_compute. reflexivity.
  - exists vehicles_count, controlled, groups. repeat split; assumption.
Defined.

Lemma create_vehicles_keeps_what_exists_witness :
  config Sample.traffic = @HighwayEnvFast.default_config (Sample.framework 100) ∧
  ∃ added, vehicles (road Sample.traffic) = [] ++ added ∧ NoDup added.
Proof.
  destruct (@create_vehicles_keeps_what_exists (Sample.framework 100)
              (Sample.blank (@HighwayEnvFast.default_config (Sample.framework 100)))
              Sample.traffic)
    as ((Hcfg & _) & _ & added & Hroad & Hdup & _).
  - apply returned_unit. vm_compute. reflexivity.
  - split; [exact Hcfg |]. exists added. split; assumption.
Defined.

(** A reset of a blank environment with the default configuration. *)
Lemma reset_starts_from_an_empty_road_witness :
  (∃ lanes_count,
     Sample.defaults !! "lanes_count" = Some lanes_count ∧
     network (road (@HighwayEnv._reset (Sample.framework 100)
                      (Sample.blank Sample.defaults)).2)
     = straight_road_network lanes_count 30) ∧
  NoDup (vehicles (road (@HighwayEnv._reset (Sample.framework 100)
                           (Sample.blank Sample.defaults)).2)).
Proof.
  destruct (@reset_starts_from_an_empty_road (Sample.framework 100)
              (Sample.blank Sample.defaults)
              (@HighwayEnv._reset (Sample.framework 100)
                 (Sample.blank Sample.defaults)).2)
    as (Hnet & Hdup & _).
  - apply returned_unit. vm_compute. reflexivity.
  - split; assumption.
Defined.

(** A reset of the fast variant with its defaults: the first vehicle on the
    road is the controlled one and keeps checking for collisions. *)
Lemma fast_reset_leaves_only_controlled_checking_witness :
  ∃ v, store Cases.fast_scene !! 1%positive = Some v ∧
       check_collisions v
       = bool_decide (1%positive ∈ controlled_vehicles Cases.fast_scene).
Proof.
  destruct (@fast_reset_leaves_only_controlled_checking (Sample.framework 100)
              (Sample.blank (@HighwayEnvFast.default_config (Sample.framework 100)))
              Cases.fast_scene)
    as (Hflags & _).
  - intros rd p h s. reflexivity.
  - apply returned_unit. vm_compute. reflexivity.
  - apply Hflags. apply (bool_decide_unpack _). vm_compute. exact I.
Defined.

(** With a density of 0 the builder places the first ego vehicle and then
    fails. *)
Lemma density_zero_leaves_a_half_built_scene_witness :
  @HighwayEnv._create_vehicles (Sample.framework 100) (Sample.blank Cases.no_density)
  = (Raise ZeroDivisionError,
     @first_ego_placed (Sample.framework 100) (Sample.blank Cases.no_density)
       (Sample.place 0 25 false, 1%N)).
Proof.
  apply (@density_zero_leaves_a_half_built_scene (Sample.framework 100)
           (Sample.blank Cases.no_density)
           "highway_env.vehicle.behavior.IDMVehicle" 50%Z [] _ 0).
  - constructor;
      [eexists; split; reflexivity
      | do 2 eexists; repeat split; reflexivity
      | do 2 eexists; repeat split; reflexivity].
  - lia.
  - reflexivity.
  - reflexivity.
Defined.

(** The default configuration, the ego vehicle alone on the road. *)
Lemma reward_bounds_witness :
  ∃ reward e',
    @HighwayEnv._reward (Sample.framework 100) VNone
      (Sample.alone Sample.defaults Sample.ego 0) = (Ok reward, e') ∧
    lmap_value (lower default_weights) (-50, 0.4 + 0.1) (0, 1) <= reward ∧
    reward <= lmap_value (upper default_weights) (-50, 0.4 + 0.1) (0, 1).
Proof.
  destruct (@reward_bounds (Sample.framework 100)
              (Sample.alone Sample.defaults Sample.ego 0) Sample.ego
              (-40, 40) (0, 30) (0, 30) 0.5
              default_weights (Some (-50, 0.4 + 0.1)) VNone)
    as (reward & e' & Hrun & Hbounds).
  - readable.
  - q_neq.
  - default_weights_hyp.
  - apply (normalise_on _ (VBool true) (-50) 0.4 0.1);
      first [vm_compute; reflexivity | q_neq].
  - exists reward, e'. split; [exact Hrun |]. apply Hbounds. reflexivity.
Defined.

Lemma default_reward_exceeds_one_witness :
  ∃ reward e',
    @HighwayEnv._reward (Sample.framework 100) VNone
      (Sample.alone Sample.defaults Sample.ego 0) = (Ok reward, e') ∧
    140 # 101 <= reward.
Proof.
  destruct (@default_reward_exceeds_one (Sample.framework 100)
              (Sample.alone Sample.defaults Sample.ego 0) Sample.ego 0.5 VNone)
    as (reward & e' & Hrun & _ & Hhigh).
  - reflexivity.
  - reflexivity.
  - reflexivity.
  - q_neq.
  - exists reward, e'. split; [exact Hrun |]. apply Hhigh; reflexivity.
Defined.

(** The stored action 0.5 is above the step. *)
Lemma torque_reward_is_a_step_witness :
  ∃ rewards e',
    @HighwayEnv._rewards (Sample.framework 100) VNone
      (Sample.alone Sample.defaults Sample.ego 0) = (Ok rewards, e') ∧
    term "torque_reward" rewards == 1.
Proof.
  destruct (@torque_reward_is_a_step (Sample.framework 100)
              (Sample.alone Sample.defaults Sample.ego 0) Sample.ego
              (-40, 40) (0, 30) (0, 30) 0.5 VNone)
    as (rewards & e' & Hrun & _ & _ & Hone & _).
  - readable.
  - q_neq.
  - exists rewards, e'. split; [exact Hrun |]. apply Hone. vm_compute. discriminate.
Defined.

(** A vehicle at speed 40, the maximum of the default speed range. *)
Lemma speed_reward_saturates_witness :
  ∃ rewards e',
    @HighwayEnv._rewards (Sample.framework 100) VNone
      (Sample.alone Sample.defaults (Sample.place 0 40 true) 0) = (Ok rewards, e') ∧
    term "speed_reward" rewards == 1.
Proof.
  destruct (@speed_reward_saturates (Sample.framework 100)
              (Sample.alone Sample.defaults (Sample.place 0 40 true) 0)
              (Sample.place 0 40 true)
              (-40, 40) (0, 30) (0, 30) 0.5 VNone)
    as (rewards & e' & Hrun & _ & _ & Hone & _).
  - readable.
  - q_neq.
  - reflexivity.
  - exists rewards, e'. split; [exact Hrun |]. apply Hone. vm_compute. discriminate.
Defined.

(** The ego vehicle one unit behind the vehicle ahead: with the vehicle
    ahead at 10 the safety term would not be smaller. *)
Lemma safe_distance_reward_monotone_witness :
  ∃ rewards e',
    @HighwayEnv._rewards (Sample.framework 100) VNone Cases.tailgating
    = (Ok rewards, e') ∧
    term "safe_distance_reward" rewards
    <= np.clip (front_half 10 (0, 30) + rear_half 100 (0, 30)) 0 1.
Proof.
  destruct (@safe_distance_reward_monotone (Sample.framework 100)
              Cases.tailgating Sample.ego
              (-40, 40) (0, 30) (0, 30) 0.5 VNone)
    as (rewards & e' & Hrun & Hmono).
  - readable.
  - q_neq.
  - reflexivity.
  - reflexivity.
  - exists rewards, e'. split; [exact Hrun |].
    apply Hmono; vm_compute; discriminate.
Defined.

(** The ego vehicle one unit behind the vehicle ahead, nothing within 100
    behind: the safety term is 1. *)
Lemma far_rear_hides_close_front_witness :
  @front_gap (Sample.framework 100) Cases.tailgating Sample.ego == 1 ∧
  ∃ rewards e',
    @HighwayEnv._rewards (Sample.framework 100) VNone Cases.tailgating
    = (Ok rewards, e') ∧
    term "safe_distance_reward" rewards == 1.
Proof.
  split; [reflexivity |].
  apply (@far_rear_hides_close_front (Sample.framework 100)
           Cases.tailgating Sample.ego
           (-40, 40) (0, 30) (0, 30) 0.5 VNone).
  - readable.
  - q_neq.
  - reflexivity.
  - reflexivity.
  - vm_compute. discriminate.
  - vm_compute. discriminate.
Defined.

(** A crashed ego vehicle ends the episode although [offroad_terminal] is
    missing from the configuration. *)
Lemma termination_short_circuits_witness :
  Cases.no_offroad_key !! "offroad_terminal" = None ∧
  @HighwayEnv._is_terminated
    (Sample.alone Cases.no_offroad_key (Sample.crash Sample.ego) 0)
  = (Ok (VBool true), Sample.alone Cases.no_offroad_key (Sample.crash Sample.ego) 0).
Proof.
  split; [reflexivity |].
  destruct (@termination_short_circuits
              (Sample.alone Cases.no_offroad_key (Sample.crash Sample.ego) 0)
              (Sample.crash Sample.ego))
    as (Hcrashed & _).
  - reflexivity.
  - apply Hcrashed. reflexivity.
Defined.

(** Keys missing from the default configuration: the range of the speed,
    read first by the evaluator; the last bound of the normalisation; the
    density, read for the first vehicle of traffic. *)
Lemma missing_configuration_keys_witness :
  @HighwayEnv._reward (Sample.framework 100) VNone
    (Sample.alone Sample.no_speed_range Sample.ego 0)
  = (Raise (KeyError "reward_speed_range"),
     Sample.alone Sample.no_speed_range Sample.ego 0) ∧
  @HighwayEnv._reward (Sample.framework 100) VNone
    (Sample.alone Cases.no_right_lane Sample.ego 0)
  = (Raise (KeyError "right_lane_reward"),
     printed 0.5 (Sample.alone Cases.no_right_lane Sample.ego 0)) ∧
  @HighwayEnv._create_vehicles (Sample.framework 100)
    (Sample.blank Cases.no_density_key)
  = (Raise (KeyError "vehicles_density"),
     @first_ego_placed (Sample.framework 100) (Sample.blank Cases.no_density_key)
       (Sample.place 0 25 false, 1%N)).
Proof.
  split; [| split].
  - destruct (@missing_configuration_keys (Sample.framework 100)
                (Sample.alone Sample.no_speed_range Sample.ego 0) VNone)
      as (_ & _ & _ & _ & _ & _ & Hearly & _).
    destruct (Hearly Sample.ego eq_refl) as [Hspeed _].
    apply Hspeed. reflexivity.
  - destruct (@missing_configuration_keys (Sample.framework 100)
                (Sample.alone Cases.no_right_lane Sample.ego 0) VNone)
      as (_ & _ & _ & _ & _ & _ & _ & Hlate & _).
    assert (Readable (Sample.alone Cases.no_right_lane Sample.ego 0) Sample.ego
              (-40, 40) (0, 30) (0, 30) 0.5) as Hread by readable.
    assert (¬ speed Sample.ego == 0) as Hspeed by q_neq.
    destruct (Hlate _ _ (3625 # 80)
                (@rewards_run (Sample.framework 100) _ _ _ _ _ _ VNone Hread Hspeed))
      as [_ Hset]; [vm_compute; reflexivity |].
    destruct (Hset (VBool true) eq_refl eq_refl) as [_ Hlow].
    destruct (Hlow (-50) eq_refl) as [_ Hhigh].
    apply (Hhigh 0.4); reflexivity.
  - destruct (@missing_configuration_keys (Sample.framework 100)
                (Sample.blank Cases.no_density_key) VNone)
      as (_ & _ & _ & _ & _ & _ & _ & _ & _ & [_ Hbuild] & _).
    destruct (Hbuild (VStr "highway_env.vehicle.behavior.IDMVehicle")
                "highway_env.vehicle.behavior.IDMVehicle" eq_refl eq_refl)
      as [_ Hcount].
    destruct (Hcount 50%Z eq_refl) as [_ Hcontrolled].
    destruct (Hcontrolled 1%Z 50%Z [] eq_refl eq_refl) as [_ Hlane].
    destruct (Hlane VNone eq_refl) as [_ Hspacing].
    apply (Hspacing 2); [reflexivity | reflexivity | lia | reflexivity].
Defined.
